(** * sud: the Swagger UI downloader, its version check and its sync run

    A shallow embedding of [main.go] (version handling and the [main]
    orchestrator) and of [Untar] (the archive extractor), with the properties
    of the design document stated and settled on them.

    Go strings and byte slices are sequences of bytes: they are modelled by
    [string] (a list of 8-bit characters).  Go's [int] is taken to be 64 bits
    wide, its values are modelled in [Z]. *)

From stdpp Require Import base option list gmap strings.
From Stdlib Require Import ZArith Ascii String Lia.

Open Scope string_scope.
Open Scope Z_scope.

(** ** Go's [strings] and [strconv] as far as the program uses them *)

Module GoStrings.

(** [a > b] on Go strings: byte-wise lexicographic order. *)
Definition gt (a b : string) : bool :=
  match String.compare a b with Gt => true | _ => false end.

Definition lt (a b : string) : bool :=
  match String.compare a b with Lt => true | _ => false end.

(** [strings.Split(s, sep)] for a one-byte separator: the pieces between
    the separators, one piece (the empty one) for the empty string. *)
Fixpoint Split (s : string) (sep : ascii) : list string :=
  match s with
  | EmptyString => [EmptyString]
  | String c rest =>
      if Ascii.eqb c sep then EmptyString :: Split rest sep
      else match Split rest sep with
           | piece :: pieces => String c piece :: pieces
           | [] => [String c EmptyString]
           end
  end.

(** [strings.Join(elems, sep)]. *)
Definition Join (elems : list string) (sep : string) : string :=
  String.concat sep elems.

(** [strings.Index(s, substr)]: the index of the first occurrence, -1 when
    there is none. *)
Fixpoint Index_from (i : Z) (s substr : string) : Z :=
  if String.prefix substr s then i
  else match s with
       | EmptyString => -1
       | String _ rest => Index_from (i + 1) rest substr
       end.

Definition Index (s substr : string) : Z := Index_from 0 s substr.

(** The slice [s[1:]] of a string that is not empty. *)
Definition slice_from_1 (s : string) : string :=
  match s with
  | EmptyString => EmptyString
  | String _ rest => rest
  end.

Definition is_digit (c : ascii) : bool :=
  let n := N_of_ascii c in ((48 <=? n) && (n <=? 57))%N.

Definition digit_value (c : ascii) : Z := Z.of_N (N_of_ascii c) - 48.

(** The decimal value of a string of digits, [None] when a byte is not a
    digit. *)
Fixpoint digits (acc : Z) (s : string) : option Z :=
  match s with
  | EmptyString => Some acc
  | String c rest =>
      if is_digit c then digits (acc * 10 + digit_value c) rest else None
  end.

Definition maxInt : Z := 2 ^ 63 - 1.
Definition minInt : Z := - 2 ^ 63.

(** [strconv.Atoi]: an optional sign, then one digit at least, base 10, the
    value in the range of [int]; [None] stands for the error. *)
Definition Atoi (s : string) : option Z :=
  let '(neg, body) :=
    match s with
    | String "-"%char rest => (true, rest)
    | String "+"%char rest => (false, rest)
    | _ => (false, s)
    end in
  match body with
  | EmptyString => None
  | _ =>
      match digits 0 body with
      | None => None
      | Some un =>
          let n := if neg then - un else un in
          if (minInt <=? n) && (n <=? maxInt) then Some n else None
      end
  end.

End GoStrings.

(** ** Go's [path] package: [Clean] and [Join]

    [path.Join] and, on Unix, [filepath.Join] are the same function.  [Clean]
    is the lexical normal form of the package documentation: separators
    collapsed, [.] elements dropped, an inner [..] dropped with the element
    before it, [..] dropped at the root, the empty path turned into [.]. *)

Module GoPath.

Definition is_rooted (p : string) : bool :=
  match p with
  | String "/"%char _ => true
  | _ => false
  end.

(** The path elements between the separators, empty ones left out. *)
Definition segments (p : string) : list string :=
  List.filter (fun s => negb (String.eqb s "")) (GoStrings.Split p "/"%char).

(** [out] is the cleaned path so far, last element first. *)
Fixpoint clean_loop (rooted : bool) (out segs : list string) : list string :=
  match segs with
  | [] => rev out
  | s :: rest =>
      if String.eqb s "." then clean_loop rooted out rest
      else if String.eqb s ".." then
        match out with
        | top :: out' =>
            if String.eqb top ".." then clean_loop rooted (s :: out) rest
            else clean_loop rooted out' rest
        | [] =>
            if rooted then clean_loop rooted [] rest
            else clean_loop rooted [s] rest
        end
      else clean_loop rooted (s :: out) rest
  end.

Definition clean_segments (p : string) : list string :=
  clean_loop (is_rooted p) [] (segments p).

Definition Clean (p : string) : string :=
  let segs := clean_segments p in
  if is_rooted p then "/" ++ GoStrings.Join segs "/"
  else match segs with
       | [] => "."
       | _ => GoStrings.Join segs "/"
       end.

(** [Join(elem...)]: the elements from the first one that is not empty,
    joined by a separator and cleaned; the empty string when there is
    none. *)
Fixpoint Join (elem : list string) : string :=
  match elem with
  | [] => ""
  | e :: rest =>
      if String.eqb e "" then Join rest
      else Clean (GoStrings.Join elem "/")
  end.

End GoPath.

(** ** Results of Go code that can panic or leave the process *)

Inductive result (A : Type) : Type :=
| Ok (a : A)
| Exit (code : Z)
| Panic (msg : string).
Arguments Ok {A} a.
Arguments Exit {A} code.
Arguments Panic {A} msg.

(** The exit status of the process: 0 when [main] returns, the argument of
    [os.Exit], 2 after a panic. *)
Definition exit_status {A} (r : result A) : Z :=
  match r with
  | Ok _ => 0
  | Exit code => code
  | Panic _ => 2
  end.

(** ** Version handling ([main.go]) *)

Definition sanitizeVersion (v : string) : string :=
  let tempV := v in
  if GoStrings.Index v "v" =? 0 then GoStrings.slice_from_1 tempV else v.

Definition isVersionValueValid (version : string) : bool :=
  let parts := GoStrings.Split version "."%char in
  (fix loop (ps : list string) : bool :=
     match ps with
     | [] => true
     | part :: rest =>
         match GoStrings.Atoi part with
         | None => false
         | Some n => if n <? 0 then false else loop rest
         end
     end) parts.

Definition splitSemver (version : string) : list string :=
  GoStrings.Split version "."%char.

(** [for i := range *current]: the body runs for [i = 0 .. len(current)-1];
    indexing [*previous] beyond its length is a run-time panic. *)
Fixpoint existsNewerVersion_loop (indices : list nat)
    (previous current : list string) : result bool :=
  match indices with
  | [] => Ok false
  | i :: rest =>
      match current !! i with
      | None => Panic "index out of range"
      | Some c =>
          match previous !! i with
          | None => Panic "index out of range"
          | Some p =>
              if GoStrings.gt c p then Ok true
              else existsNewerVersion_loop rest previous current
          end
      end
  end.

Definition existsNewerVersion (previous current : list string) : result bool :=
  existsNewerVersion_loop (seq 0 (List.length current)) previous current.

(** The older comparison on three-part versions, [diffSemvers] over
    [[3]string]: the loop over the three indices, written out. *)
Definition semver3 : Type := string * string * string.

Definition diffSemvers (x y : semver3) : Z :=
  let '(x0, x1, x2) := x in
  let '(y0, y1, y2) := y in
  if GoStrings.gt x0 y0 then 1 else if GoStrings.lt x0 y0 then -1
  else if GoStrings.gt x1 y1 then 1 else if GoStrings.lt x1 y1 then -1
  else if GoStrings.gt x2 y2 then 1 else if GoStrings.lt x2 y2 then -1
  else 0.


(** ** The world of a run

    The files the program touches, as the cells the run reads and writes: the
    output directory, the version file [.sud] in it, the downloaded archive
    [temp.tar.gz] and the extraction directory [extracted] in the working
    directory, and what was copied into the output directory.  The requests
    sent and the lines printed are recorded in order. *)

Inductive marker_file : Type :=
| MarkerAbsent
| MarkerUnreadable
| MarkerData (data : string).

Record World : Type := mkWorld {
  out_dir : bool;
  marker : marker_file;
  temp_tar : option string;
  extracted : option (list string);
  copies : list (string * bool);
  requests : list string;
  console : list string
}.

Record GithubResponse : Type := mkGithubResponse {
  URL : string;
  TagName : string;
  TarballURL : string
}.

Record VersionFile : Type := mkVersionFile { Version : string }.

(** What the run does not decide itself: the command line, the answers of
    the network, the libraries ([docopt], [yaml], the [untar] helper and
    [copier.Copy]) and the failures of the operating system. *)
Record Env : Type := mkEnv {
  docopt_out : option string;
  getwd : option string;
  mkdirall_fails : bool;
  release_info : option GithubResponse;
  http_get : string -> option string;
  write_temp_fails : bool;
  untar : string -> option (list string) -> option (list string) * bool;
  copy_fails : string -> bool;
  removeall_fails : bool;
  remove_fails : bool;
  write_marker_fails : bool;
  yaml_Unmarshal : string -> option VersionFile;
  yaml_Marshal : VersionFile -> option string
}.

Definition prog (A : Type) : Type := World -> result A * World.

Definition ret {A} (a : A) : prog A := fun w => (Ok a, w).

Definition bind {A B} (m : prog A) (k : A -> prog B) : prog B :=
  fun w =>
    match m w with
    | (Ok a, w') => k a w'
    | (Exit code, w') => (Exit code, w')
    | (Panic msg, w') => (Panic msg, w')
    end.

Notation "'do' x <- m ; k" := (bind m (fun x => k))
  (at level 10, x name, m at level 100, k at level 200).
Notation "m ;;; k" := (bind m (fun _ => k))
  (at level 100, k at level 200, right associativity).

Definition os_Exit {A} (code : Z) : prog A := fun w => (Exit code, w).
Definition panic {A} (msg : string) : prog A := fun w => (Panic msg, w).
Definition lift {A} (r : result A) : prog A := fun w => (r, w).
Definition get_world : prog World := fun w => (Ok w, w).
Definition put_world (w : World) : prog unit := fun _ => (Ok tt, w).
Definition println (line : string) : prog unit :=
  fun w => (Ok tt, mkWorld (out_dir w) (marker w) (temp_tar w) (extracted w)
                           (copies w) (requests w) (console w ++ [line])%list).
Definition request (url : string) : prog unit :=
  fun w => (Ok tt, mkWorld (out_dir w) (marker w) (temp_tar w) (extracted w)
                           (copies w) (requests w ++ [url])%list (console w)).

(** *** [loggers.go] *)

Definition logError (msg : string) : prog unit :=
  println ("[Error]  [" ++ msg ++ "]").

Definition logErrorFatal {A} (msg : string) : prog A :=
  logError msg;;; println "Exiting...";;; os_Exit 1.

Definition warn (warning : string) : prog unit :=
  println ("[Warning]  " ++ warning).

Definition goodLuck (message : string) : prog unit :=
  println "";;; println message;;; println "".

(** *** [main.go] *)

Definition SwaggerReleasesURL : string :=
  "https://api.github.com/repos/swagger-api/swagger-ui/releases/latest".
Definition SavingFileName : string := ".sud".
Definition TempTarFilename : string := "temp.tar.gz".
Definition TempExtractionDirectory : string := "extracted".

Definition set_out_dir (b : bool) (w : World) : World :=
  mkWorld b (marker w) (temp_tar w) (extracted w) (copies w) (requests w)
          (console w).
Definition set_marker (m : marker_file) (w : World) : World :=
  mkWorld (out_dir w) m (temp_tar w) (extracted w) (copies w) (requests w)
          (console w).
Definition set_temp_tar (t : option string) (w : World) : World :=
  mkWorld (out_dir w) (marker w) t (extracted w) (copies w) (requests w)
          (console w).
Definition set_extracted (x : option (list string)) (w : World) : World :=
  mkWorld (out_dir w) (marker w) (temp_tar w) x (copies w) (requests w)
          (console w).
Definition add_copy (c : string * bool) (w : World) : World :=
  mkWorld (out_dir w) (marker w) (temp_tar w) (extracted w)
          (copies w ++ [c])%list (requests w) (console w).

(** [error] values: [None] is Go's [nil]. *)
Definition error : Type := option string.

Definition getAbsoluteOutputPath (e : Env) (relativeOutputPath : string)
  : string * error :=
  match getwd e with
  | None => ("", Some "getwd")
  | Some dir => (GoPath.Join [dir; relativeOutputPath], None)
  end.

Definition outputDirectoryExists : prog bool :=
  fun w => (Ok (out_dir w), w).

Definition doesVersionFileExists : prog bool :=
  fun w => (Ok (match marker w with MarkerAbsent => false | _ => true end), w).

Definition getVersionFileData : prog (string * error) :=
  fun w =>
    match marker w with
    | MarkerData data => (Ok (data, None), w)
    | _ => (Ok ("", Some "read"), w)
    end.

Definition isVersionFileValid (e : Env) (fileData : string)
  : bool * VersionFile :=
  match yaml_Unmarshal e fileData with
  | None => (false, mkVersionFile "")
  | Some vFile => (true, vFile)
  end.

Definition doesVersionFileContainVersionKey (vFile : VersionFile)
  : bool * string :=
  if (Z.of_nat (String.length (Version vFile)) >? 0) then (true, Version vFile)
  else (false, "").

Definition fetchLatestReleaseInfo (e : Env) (url : string)
  : prog (GithubResponse * error) :=
  request url;;;
  match release_info e with
  | None => ret (mkGithubResponse "" "" "", Some "fetch")
  | Some response => ret (response, None)
  end.

Definition downloadTheTarball (e : Env) (url : string) : prog error :=
  request url;;;
  match http_get e url with
  | None => ret (Some "get")
  | Some body =>
      if write_temp_fails e then ret (Some "write")
      else fun w => (Ok None, set_temp_tar (Some body) w)
  end.

Definition extract (e : Env) : prog error :=
  fun w =>
    match temp_tar w with
    | None => (Ok (Some "open"), w)
    | Some file =>
        let '(staging, failed) := untar e file (extracted w) in
        (Ok (if failed then Some "untar" else None), set_extracted staging w)
    end.

Definition copyContentsToOutput (e : Env) (src : string) : prog error :=
  fun w =>
    let subdirs := default [] (extracted w) in
    match subdirs !! 0%nat with
    | None => (Panic "index out of range", w)
    | Some name =>
        let from := GoPath.Join [src; name; "/dist"] in
        if copy_fails e from then (Ok (Some "copy"), add_copy (from, false) w)
        else (Ok None, add_copy (from, true) w)
    end.

Definition clearRemaining (e : Env) : prog error :=
  fun w =>
    let w1 := if removeall_fails e then w else set_extracted None w in
    match temp_tar w1 with
    | None => (Ok (Some "remove"), w1)
    | Some _ =>
        if remove_fails e then (Ok (Some "remove"), w1)
        else (Ok None, set_temp_tar None w1)
    end.

Definition setLatestVersion (e : Env) (version : string) : prog error :=
  let versionFileData := mkVersionFile version in
  match yaml_Marshal e versionFileData with
  | None => ret (Some "marshal")
  | Some out =>
      fun w =>
        if negb (out_dir w) || write_marker_fails e then (Ok (Some "write"), w)
        else (Ok None, set_marker (MarkerData out) w)
  end.

Definition createOutputDirectory (e : Env) : prog error :=
  fun w =>
    if mkdirall_fails e then (Ok (Some "mkdir"), w)
    else (Ok None, set_out_dir true w).

Definition parseArgs (e : Env) : prog string :=
  match docopt_out e with
  | None => println "error occurred in parsing arguments";;; os_Exit 1
  | Some out => ret (if (Z.of_nat (String.length out) =? 0) then "./" else out)
  end.

(** ** The archive extractor ([Untar])

    The file system is a finite map from absolute, cleaned paths (lists of
    path elements; the root is the empty list and is always a directory) to
    directories and regular files, with the working directory that relative
    paths start from. *)

Module Archive.

Inductive node : Type :=
| Dir
| File (mode : Z) (content : string).

Record FS : Type := mkFS {
  cwd : string;
  nodes : gmap (list string) node
}.

(** The absolute path a path names for the operating system. *)
Definition resolve (fs : FS) (p : string) : list string :=
  if GoPath.is_rooted p then GoPath.clean_loop true [] (GoPath.segments p)
  else GoPath.clean_loop true []
         (GoPath.segments (cwd fs) ++ GoPath.segments p)%list.

Definition lookup_node (fs : FS) (at_ : list string) : option node :=
  match at_ with
  | [] => Some Dir
  | _ => nodes fs !! at_
  end.

(** [os.Stat]: [None] stands for the error. *)
Definition os_Stat (fs : FS) (name : string) : option node :=
  lookup_node fs (resolve fs name).

(** The directories from [base] down along [segs]: [None] when a regular
    file is in the way. *)
Fixpoint mkdir_chain (base segs : list string) (m : gmap (list string) node)
  : option (gmap (list string) node) :=
  match segs with
  | [] => Some m
  | s :: rest =>
      let here := (base ++ [s])%list in
      match m !! here with
      | Some (File _ _) => None
      | Some Dir => mkdir_chain here rest m
      | None => mkdir_chain here rest (<[here := Dir]> m)
      end
  end.

(** [os.MkdirAll(path, 0755)]. *)
Definition os_MkdirAll (fs : FS) (path : string) : error * FS :=
  match mkdir_chain [] (resolve fs path) (nodes fs) with
  | None => (Some "mkdir: not a directory", fs)
  | Some m => (None, mkFS (cwd fs) m)
  end.

(** [os.OpenFile(name, os.O_CREATE|os.O_RDWR, perm)]: the file is created
    when it is absent and opened as it is (not truncated) when it exists;
    the handle is the path of the file. *)
Definition os_OpenFile (fs : FS) (name : string) (perm : Z)
  : (list string * FS) + string :=
  let at_ := resolve fs name in
  match at_ with
  | [] => inr "open: is a directory"
  | _ =>
      match lookup_node fs (removelast at_) with
      | Some Dir =>
          match nodes fs !! at_ with
          | Some Dir => inr "open: is a directory"
          | Some (File _ _) => inl (at_, fs)
          | None => inl (at_, mkFS (cwd fs) (<[at_ := File perm ""]> (nodes fs)))
          end
      | _ => inr "open: no such file or directory"
      end
  end.

(** Writing [data] into a file from offset 0. *)
Definition overwrite (old data : string) : string :=
  data ++ String.substring (String.length data)
                           (String.length old - String.length data) old.

(** [io.Copy(f, tr)]: what the archive yields for the entry is written to
    the file; the error is the one of the archive reader. *)
Definition io_Copy (fs : FS) (f : list string) (body : string)
    (body_fails : bool) : error * FS :=
  let fs' :=
    match nodes fs !! f with
    | Some (File mode old) =>
        mkFS (cwd fs) (<[f := File mode (overwrite old body)]> (nodes fs))
    | _ => fs
    end in
  (if body_fails then Some "unexpected EOF" else None, fs').

Inductive typeflag : Type := TypeReg | TypeDir | TypeOther (flag : ascii).

Record Header : Type := mkHeader {
  Name : string;
  Typeflag : typeflag;
  Mode : Z
}.

(** What [tr.Next()] and the read of the body give, entry after entry, and
    how the stream ends. *)
Inductive tar_item : Type :=
| NilHeader
| Entry (header : Header) (body : string) (body_fails : bool).

Inductive tar_end : Type :=
| EOF
| ReadError (msg : string).

(** The reader passed to [Untar]: not a gzip stream, or the entries of the
    archive in it. *)
Inductive reader : Type :=
| NotGzip
| Gzip (items : list tar_item) (last : tar_end).

Fixpoint Untar_loop (dst : string) (items : list tar_item) (last : tar_end)
    (fs : FS) : error * FS :=
  match items with
  | [] =>
      match last with
      | EOF => (None, fs)
      | ReadError msg => (Some msg, fs)
      end
  | NilHeader :: rest => Untar_loop dst rest last fs
  | Entry header body body_fails :: rest =>
      let target := GoPath.Join [dst; Name header] in
      match Typeflag header with
      | TypeDir =>
          match os_Stat fs target with
          | Some _ => Untar_loop dst rest last fs
          | None =>
              match os_MkdirAll fs target with
              | (Some err, fs') => (Some err, fs')
              | (None, fs') => Untar_loop dst rest last fs'
              end
          end
      | TypeReg =>
          match os_OpenFile fs target (Mode header) with
          | inr err => (Some err, fs)
          | inl (f, fs1) =>
              match io_Copy fs1 f body body_fails with
              | (Some err, fs2) => (Some err, fs2)
              | (None, fs2) => Untar_loop dst rest last fs2
              end
          end
      | TypeOther _ => Untar_loop dst rest last fs
      end
  end.

Definition Untar (dst : string) (r : reader) (fs : FS) : error * FS :=
  match r with
  | NotGzip => (Some "gzip: invalid header", fs)
  | Gzip items last => Untar_loop dst items last fs
  end.

(** [target] names a place in or below the directory [dst]. *)
Definition inside (fs : FS) (dst target : string) : bool :=
  bool_decide (resolve fs dst `prefix_of` resolve fs target).

(** A path element [..] occurs in the name. *)
Definition has_dotdot (name : string) : bool :=
  existsb (fun s => String.eqb s "..") (GoPath.segments name).

End Archive.

(** [main], in the order of the source.  Its body is cut at the states of
    the run: [main_marker] is the block that looks for the version file and
    settles [previousVersionParts] (lines 203-242), [main_compare] fetches
    the release information and decides whether there is a newer version
    (lines 244-261), [main_update] downloads, extracts, copies, cleans up and
    saves the version (lines 263-293).  [main_check] is [main] up to the
    decision: the arguments, the version file, the comparison.  The paths of
    the files are fixed by the cells of the world, so that [outputPath] is
    passed on only where it is printed. *)

Definition baselineVersionParts : list string := ["0"; "0"; "0"].

Definition main_marker (e : Env) : prog (list string) :=
  let previousVersionParts := baselineVersionParts in
  do dirExists <- outputDirectoryExists;
  if dirExists then
    warn "output directory exists. no need to create it.";;;
    do fileExists <- doesVersionFileExists;
    if fileExists then
      warn "version file found in output directory.";;;
      warn "reading version file...";;;
      do read <- getVersionFileData;
      let '(versionFileData, err) := read in
      match err with
      | None =>
          warn "reading version file successful.";;;
          warn "validating version file...";;;
          let '(ok, vFile) := isVersionFileValid e versionFileData in
          if ok then
            let '(ok, version) := doesVersionFileContainVersionKey vFile in
            if ok then
              let version := sanitizeVersion version in
              if isVersionValueValid version then
                warn "validating version file successful.";;;
                warn ("previously downloaded version found " ++ version ++ ".");;;
                ret (splitSemver version)
              else
                warn "version file does not have a valid 'version' value.";;;
                ret previousVersionParts
            else
              warn "version file does not contain 'version' key.";;;
              ret previousVersionParts
          else
            warn "invalid version file.";;;
            ret previousVersionParts
      | Some _ =>
          warn "unable to read version file data.";;;
          ret previousVersionParts
      end
    else
      warn "version file does not exist.";;;
      ret previousVersionParts
  else
    warn "output directory does not exist.";;;
    warn "creating output directory...";;;
    do err <- createOutputDirectory e;
    match err with
    | Some _ => logErrorFatal "unable to create output directory."
    | None =>
        warn "output directory created.";;;
        ret previousVersionParts
    end.

Definition main_compare (e : Env) (previousVersionParts : list string)
  : prog (GithubResponse * string) :=
  warn "fetching Swagger UI latest release information...";;;
  warn SwaggerReleasesURL;;;
  do fetched <- fetchLatestReleaseInfo e SwaggerReleasesURL;
  let '(response, err) := fetched in
  match err with
  | Some _ =>
      logErrorFatal "failed to fetch latest Swagger UI release information."
  | None =>
  warn "fetching latest release information successful.";;;
  let tagName := sanitizeVersion (TagName response) in
  let latestReleaseVersionParts := splitSemver tagName in
  do newer <- lift (existsNewerVersion previousVersionParts
                                       latestReleaseVersionParts);
  if negb newer then
    warn "no new version found.";;;
    warn "Exiting...";;;
    os_Exit 0
  else
    warn ("new version " ++ tagName ++ " found.");;;
    ret (response, tagName)
  end.

Definition main_update (e : Env) (outputPath : string)
    (response : GithubResponse) (tagName : string) : prog unit :=
  warn "downloading latest release...";;;
  do err <- downloadTheTarball e (TarballURL response);
  match err with
  | Some _ => logErrorFatal "error downloading latest release."
  | None =>
  warn "downloading latest release successful.";;;
  warn ("extracting downloaded tar file to " ++ outputPath ++ "...");;;
  do err <- extract e;
  match err with
  | Some _ => logErrorFatal "error extracting tar file."
  | None =>
  warn "extracting downloaded tar file successful.";;;
  warn ("copying necessary files to " ++ outputPath ++ "...");;;
  do err <- copyContentsToOutput e
              (GoPath.Join ["."; TempExtractionDirectory]);
  match err with
  | Some _ => logErrorFatal "error copying files."
  | None =>
  warn "copying necessary files successful.";;;
  warn "cleaning things up...";;;
  do err <- clearRemaining e;
  match err with
  | Some _ => logErrorFatal "error removing unnecessary files."
  | None =>
  warn "cleaning things up successful.";;;
  warn ("saving latest version to "
        ++ GoPath.Join [outputPath; SavingFileName] ++ "...");;;
  do err <- setLatestVersion e tagName;
  match err with
  | Some _ => logErrorFatal "error saving latest release version."
  | None =>
  warn "latest version saved successfully.";;;
  goodLuck "Have a nice day :)"
  end end end end end.

Definition main_check (e : Env) : prog (string * GithubResponse * string) :=
  do out <- parseArgs e;
  let '(outputPath, _) := getAbsoluteOutputPath e out in
  warn ("specified output directory: (" ++ outputPath ++ ")");;;
  do previousVersionParts <- main_marker e;
  do latest <- main_compare e previousVersionParts;
  let '(response, tagName) := latest in
  ret (outputPath, response, tagName).

Definition main (e : Env) : prog unit :=
  do checked <- main_check e;
  let '(outputPath, response, tagName) := checked in
  main_update e outputPath response tagName.


(** ** The version file and the output directory on the file system

    The functions of [main.go] that look for, read and write the version
    file and the output directory, on the file system of the extractor,
    where the paths they build are resolved; [Files000] has the three of
    them that differ in the earlier revision, which reads [.sub] where it
    writes [.sud]. *)

Module Files.

(** [ioutil.ReadFile]. *)
Definition ioutil_ReadFile (fs : Archive.FS) (filename : string)
  : string * error :=
  match Archive.resolve fs filename with
  | [] => ("", Some "read: is a directory")
  | place =>
      match Archive.nodes fs !! place with
      | Some (Archive.File _ content) => (content, None)
      | Some Archive.Dir => ("", Some "read: is a directory")
      | None => ("", Some "open: no such file or directory")
      end
  end.

(** [ioutil.WriteFile(filename, data, perm)]: the file is created when it is
    absent, and truncated and written otherwise. *)
Definition ioutil_WriteFile (fs : Archive.FS) (filename data : string)
    (perm : Z) : error * Archive.FS :=
  match Archive.resolve fs filename with
  | [] => (Some "open: is a directory", fs)
  | place =>
      match Archive.lookup_node fs (removelast place) with
      | Some Archive.Dir =>
          match Archive.nodes fs !! place with
          | Some Archive.Dir => (Some "open: is a directory", fs)
          | Some (Archive.File mode _) =>
              (None, Archive.mkFS (Archive.cwd fs)
                       (<[place := Archive.File mode data]> (Archive.nodes fs)))
          | None =>
              (None, Archive.mkFS (Archive.cwd fs)
                       (<[place := Archive.File perm data]> (Archive.nodes fs)))
          end
      | _ => (Some "open: no such file or directory", fs)
      end
  end.

Definition outputDirectoryExists (fs : Archive.FS) (outPath : string) : bool :=
  match Archive.os_Stat fs outPath with
  | Some _ => true
  | None => false
  end.

Definition doesVersionFileExists (fs : Archive.FS) (outPath : string) : bool :=
  match Archive.os_Stat fs (GoPath.Join [outPath; SavingFileName]) with
  | Some _ => true
  | None => false
  end.

Definition getVersionFileData (fs : Archive.FS) (filePath : string)
  : string * error :=
  let str := GoPath.Join [filePath; SavingFileName] in
  match ioutil_ReadFile fs str with
  | (_, Some err) => ("", Some err)
  | (data, None) => (data, None)
  end.

Definition setLatestVersion (marshal : VersionFile -> option string)
    (fs : Archive.FS) (outPath version : string) : error * Archive.FS :=
  let versionFileData := mkVersionFile version in
  match marshal versionFileData with
  | None => (Some "marshal", fs)
  | Some out =>
      ioutil_WriteFile fs (GoPath.Join [outPath; SavingFileName]) out 420
  end.

Definition createOutputDirectory (fs : Archive.FS) (outPath : string)
  : error * Archive.FS :=
  Archive.os_MkdirAll fs outPath.

End Files.

Module Files000.

Definition doesVersionFileExists (fs : Archive.FS) (outPath : string) : bool :=
  match Archive.os_Stat fs (GoPath.Join [outPath; ".sud"]) with
  | Some _ => true
  | None => false
  end.

Definition getVersionFileData (fs : Archive.FS) (filePath : string)
  : string * error :=
  let str := GoPath.Join [filePath; ".sub"] in
  match Files.ioutil_ReadFile fs str with
  | (_, Some err) => ("", Some err)
  | (data, None) => (data, None)
  end.

Definition setLatestVersion (marshal : VersionFile -> option string)
    (fs : Archive.FS) (outPath version : string) : error * Archive.FS :=
  let versionFileData := mkVersionFile version in
  match marshal versionFileData with
  | None => (Some "marshal", fs)
  | Some out =>
      Files.ioutil_WriteFile fs (GoPath.Join [outPath; ".sud"]) out 420
  end.

End Files000.

(** ** The version check of the older revision *)

(** [parseSemver(version, parts)]: the array is passed by value and never
    written. *)
Definition parseSemver (version : string) (parts : semver3) : bool :=
  let p := GoStrings.Split version "."%char in
  (fix loop (ps : list string) : bool :=
     match ps with
     | [] => true
     | part :: rest =>
         match GoStrings.Atoi part with
         | None => false
         | Some v => if v <? 0 then false else loop rest
         end
     end) p.

(** [sanitizeSemver]: [log.Fatalf] ends the process with status 1. *)
Definition sanitizeSemver (v : string) : result semver3 :=
  let v := if GoStrings.Index v "v" =? 0 then GoStrings.slice_from_1 v else v in
  let parts : semver3 := ("", "", "") in
  let ok := parseSemver v parts in
  if negb ok then Exit 1 else Ok parts.

(** ** Sample inputs for the examples

    A stand-in for the YAML library on the one-line file the program writes,
    and an environment in which every step succeeds. *)

Definition newline : string := String "010"%char EmptyString.

Definition chomp (s : string) : string :=
  if String.eqb (String.substring (String.length s - 1) 1 s) newline
  then String.substring 0 (String.length s - 1) s else s.

Definition sample_Unmarshal (data : string) : option VersionFile :=
  if String.prefix "version: " data
  then Some (mkVersionFile
               (chomp (String.substring 9 (String.length data - 9) data)))
  else None.

Definition sample_Marshal (vFile : VersionFile) : option string :=
  Some ("version: " ++ Version vFile ++ newline).

Definition sample_tarball : string := "https://example.org/tarball".

Definition sample_untar (top : list string) (failed : bool)
  : string -> option (list string) -> option (list string) * bool :=
  fun _ _ => (Some top, failed).

(** The release [tag] is on offer; extraction leaves the entries [top] at the
    top of the extraction directory and fails when [untar_failed]. *)
Definition sample_env (tag : string) (top : list string) (untar_failed : bool)
  : Env :=
  mkEnv (Some "www") (Some "/srv") false
        (Some (mkGithubResponse SwaggerReleasesURL tag sample_tarball))
        (fun _ => Some "archive bytes") false
        (sample_untar top untar_failed) (fun _ => false)
        false false false sample_Unmarshal sample_Marshal.

Definition sample_world (dir : bool) (m : marker_file) : World :=
  mkWorld dir m None None [] [] [].

(** An archive with one entry that points out of the extraction directory,
    and a file system to extract it in. *)

Definition traversal_header : Archive.Header :=
  Archive.mkHeader "../../etc/passthrough" Archive.TypeReg 420.

Definition traversal_archive : Archive.reader :=
  Archive.Gzip [Archive.Entry traversal_header "payload" false] Archive.EOF.

(** The working directory [/work], beside the directory [/etc]. *)
Definition sample_fs : Archive.FS :=
  Archive.mkFS "/work"
    (<[ ["work"] := Archive.Dir ]> (<[ ["etc"] := Archive.Dir ]> ∅)).

(** ** Vocabulary of the properties *)

(** Where [copyContentsToOutput] copies from, for the entry [name] found at
    the top of the extraction directory. *)
Definition dist_of (name : string) : string :=
  GoPath.Join [GoPath.Join ["."; TempExtractionDirectory]; name; "/dist"].

(** The steps of the update, as the environment decides them, for a run
    that starts the update in the world [w] with the release [response]:
    the download fails when the request or the write of [temp.tar.gz]
    fails; the extraction fails when [untar] does; the relocation fails when
    the extraction directory has no entry or the copy of the first one
    fails. *)
Definition download_fails (e : Env) (response : GithubResponse) : Prop :=
  http_get e (TarballURL response) = None \/ write_temp_fails e = true.

Definition extract_fails (e : Env) (response : GithubResponse) (w : World)
  : Prop :=
  exists body : string,
    http_get e (TarballURL response) = Some body /\
    write_temp_fails e = false /\
    snd (untar e body (extracted w)) = true.

Definition relocate_fails (e : Env) (response : GithubResponse) (w : World)
  : Prop :=
  exists body : string,
    http_get e (TarballURL response) = Some body /\
    write_temp_fails e = false /\
    snd (untar e body (extracted w)) = false /\
    match default [] (fst (untar e body (extracted w))) !! 0%nat with
    | None => True
    | Some name => copy_fails e (dist_of name) = true
    end.

(** The version file gives no usable version: it is absent, cannot be read,
    is no YAML, has no [version], or has one that is no valid version. *)
Definition marker_unusable (e : Env) (m : marker_file) : Prop :=
  match m with
  | MarkerAbsent => True
  | MarkerUnreadable => True
  | MarkerData data =>
      match yaml_Unmarshal e data with
      | None => True
      | Some vFile =>
          Version vFile = "" \/
          isVersionValueValid (sanitizeVersion (Version vFile)) = false
      end
  end.

(** Two worlds that differ at most in the version file and in what was
    printed. *)
Definition same_but_marker (w1 w2 : World) : Prop :=
  out_dir w1 = out_dir w2 /\ temp_tar w1 = temp_tar w2 /\
  extracted w1 = extracted w2 /\ copies w1 = copies w2 /\
  requests w1 = requests w2.

(** The byte [sep] does not occur in the string. *)
Fixpoint free_of (sep : ascii) (s : string) : Prop :=
  match s with
  | EmptyString => True
  | String c rest => c <> sep /\ free_of sep rest
  end.

(** A path element: not empty, without a separator in it. *)
Definition path_element (s : string) : Prop :=
  String.eqb s "" = false /\ free_of "/" s.

(** A component of a version that [isVersionValueValid] accepts: [Atoi]
    reads it as an [int] that is not negative. *)
Definition component_ok (part : string) : Prop :=
  exists n : Z, GoStrings.Atoi part = Some n /\ 0 <= n.

(** The result of [diffSemvers] for the outcome of one string comparison. *)
Definition sign_of (c : comparison) : Z :=
  match c with Eq => 0 | Lt => -1 | Gt => 1 end.

(** The three parts of a version as the list [existsNewerVersion] takes. *)
Definition parts_of (x : semver3) : list string :=
  let '(x0, x1, x2) := x in [x0; x1; x2].

(** What an extraction keeps of the file system: the working directory,
    every directory, and every file with its mode (its content may be
    written over). *)
Definition kept (fs fs' : Archive.FS) : Prop :=
  Archive.cwd fs' = Archive.cwd fs /\
  forall k : list string,
    match Archive.nodes fs !! k with
    | Some Archive.Dir => Archive.nodes fs' !! k = Some Archive.Dir
    | Some (Archive.File mode _) =>
        exists content, Archive.nodes fs' !! k = Some (Archive.File mode content)
    | None => True
    end.

(** An entry that [Untar] passes over: a nil header, or a header that is
    neither a directory nor a regular file (a link, a device, ...). *)
Definition passed_over (item : Archive.tar_item) : Prop :=
  match item with
  | Archive.NilHeader => True
  | Archive.Entry header _ _ =>
      match Archive.Typeflag header with
      | Archive.TypeOther _ => True
      | _ => False
      end
  end.

(** * Properties *)

(** ** Strings *)

Section SplitJoin.

Variable sep : ascii.

Lemma Split_not_nil (s : string) : GoStrings.Split s sep <> [].
Proof.
  destruct s as [|c rest]; simpl; [discriminate|].
  destruct (Ascii.eqb c sep); [discriminate|].
  destruct (GoStrings.Split rest sep); discriminate.
Qed.

Lemma Split_free (s : string) : free_of sep s -> GoStrings.Split s sep = [s].
Proof.
  induction s as [|c rest IH]; simpl; [reflexivity|].
  intros [Hc Hrest].
  apply Ascii.eqb_neq in Hc. rewrite Hc, (IH Hrest). reflexivity.
Qed.

Lemma Split_app_sep (a b : string) :
  free_of sep a ->
  GoStrings.Split (a ++ String sep b) sep = a :: GoStrings.Split b sep.
Proof.
  induction a as [|c rest IH]; simpl.
  - intros _. rewrite Ascii.eqb_refl. reflexivity.
  - intros [Hc Hrest].
    apply Ascii.eqb_neq in Hc. rewrite Hc, (IH Hrest). reflexivity.
Qed.

Lemma Split_app (a b : string) :
  GoStrings.Split (a ++ String sep b) sep =
  (GoStrings.Split a sep ++ GoStrings.Split b sep)%list.
Proof.
  induction a as [|c rest IH]; simpl.
  - rewrite Ascii.eqb_refl. reflexivity.
  - destruct (Ascii.eqb c sep); [rewrite IH; reflexivity|].
    rewrite IH.
    destruct (GoStrings.Split rest sep) eqn:Hrest; [|reflexivity].
    exfalso. eapply Split_not_nil, Hrest.
Qed.

(** Splitting what was joined gives the pieces back. *)
Lemma Split_Join (pieces : list string) :
  pieces <> [] -> Forall (free_of sep) pieces ->
  GoStrings.Split (GoStrings.Join pieces (String sep "")) sep = pieces.
Proof.
  unfold GoStrings.Join.
  induction pieces as [|p rest IH]; [congruence|].
  intros _ Hfree. inversion Hfree as [|? ? Hp Hrest]; subst.
  destruct rest as [|q rest'].
  - simpl. apply Split_free, Hp.
  - change (String.concat (String sep "") (p :: q :: rest'))
      with (p ++ String sep (String.concat (String sep "") (q :: rest'))).
    rewrite Split_app_sep by exact Hp.
    rewrite IH by (congruence || exact Hrest). reflexivity.
Qed.

(** The pieces of a split are free of the separator. *)
Lemma Split_pieces_free (s : string) :
  Forall (free_of sep) (GoStrings.Split s sep).
Proof.
  induction s as [|c rest IH]; simpl.
  - repeat constructor.
  - destruct (Ascii.eqb c sep) eqn:Hc.
    + constructor; [exact I|exact IH].
    + apply Ascii.eqb_neq in Hc.
      destruct (GoStrings.Split rest sep) as [|piece pieces].
      * repeat constructor. exact Hc.
      * inversion IH; subst. constructor; [split; assumption|assumption].
Qed.

End SplitJoin.

Lemma Index_from_range (s substr : string) (i : Z) :
  GoStrings.Index_from i s substr = -1 \/ i <= GoStrings.Index_from i s substr.
Proof.
  revert i. induction s as [|c rest IH]; intros i; cbn [GoStrings.Index_from].
  - destruct substr; simpl; [right; lia|left; reflexivity].
  - destruct (String.prefix substr (String c rest)); [right; lia|].
    destruct (IH (i + 1)) as [H|H]; [left; exact H|right; lia].
Qed.

(** [sanitizeVersion] drops a leading [v] and nothing else. *)
Lemma sanitizeVersion_spec (v : string) :
  sanitizeVersion v =
  match v with
  | String "v"%char rest => rest
  | _ => v
  end.
Proof.
  unfold sanitizeVersion, GoStrings.Index.
  destruct v as [|c rest]; [reflexivity|].
  cbn [GoStrings.Index_from String.prefix].
  destruct (ascii_dec "v"%char c) as [<-|Hne].
  - cbn. destruct rest; reflexivity.
  - assert (Hidx : (GoStrings.Index_from (0 + 1) rest "v" =? 0) = false)
      by (apply Z.eqb_neq; destruct (Index_from_range rest "v" (0 + 1)); lia).
    rewrite Hidx.
    destruct c as [[] [] [] [] [] [] [] []]; try reflexivity. congruence.
Qed.

(** ** The version check *)

Lemma existsNewerVersion_loop_shift (n k : nat) (p c : string)
    (previous current : list string) :
  existsNewerVersion_loop (seq (S k) n) (p :: previous) (c :: current) =
  existsNewerVersion_loop (seq k n) previous current.
Proof.
  revert k. induction n as [|n IH]; intros k; [reflexivity|].
  cbn [seq existsNewerVersion_loop]. rewrite IH. reflexivity.
Qed.

Lemma existsNewerVersion_nil (previous : list string) :
  existsNewerVersion previous [] = Ok false.
Proof. reflexivity. Qed.

Lemma existsNewerVersion_short (c : string) (current : list string) :
  existsNewerVersion [] (c :: current) = Panic "index out of range".
Proof. reflexivity. Qed.

Lemma existsNewerVersion_cons (p c : string) (previous current : list string) :
  existsNewerVersion (p :: previous) (c :: current) =
  if GoStrings.gt c p then Ok true else existsNewerVersion previous current.
Proof.
  unfold existsNewerVersion. cbn [List.length seq existsNewerVersion_loop].
  cbn [lookup list_lookup]. rewrite existsNewerVersion_loop_shift. reflexivity.
Qed.

Lemma existsNewerVersion_not_Exit (previous current : list string) (code : Z) :
  existsNewerVersion previous current <> Exit code.
Proof.
  revert previous. induction current as [|c current IH]; intros previous.
  - rewrite existsNewerVersion_nil. discriminate.
  - destruct previous as [|p previous].
    + rewrite existsNewerVersion_short. discriminate.
    + rewrite existsNewerVersion_cons.
      destruct (GoStrings.gt c p); [discriminate|apply IH].
Qed.

(** A version never exceeds itself: the check of a version against itself
    answers [false]. *)
Lemma gt_irrefl (s : string) : GoStrings.gt s s = false.
Proof.
  unfold GoStrings.gt.
  destruct (String.compare s s) eqn:H; try reflexivity.
  pose proof (String.compare_antisym s s) as Ha. rewrite H in Ha. discriminate.
Qed.

Lemma existsNewerVersion_same (parts : list string) :
  existsNewerVersion parts parts = Ok false.
Proof.
  induction parts as [|p parts IH]; [reflexivity|].
  rewrite existsNewerVersion_cons, gt_irrefl. exact IH.
Qed.

(** C10, as amended.  The newer-version check panics exactly when the remote
    version has more components than the baseline and none of the components
    they share is greater in the remote version than in the baseline; in
    every other case it answers with a boolean. *)
Theorem existsNewerVersion_panics_iff (previous current : list string) :
  (exists msg, existsNewerVersion previous current = Panic msg) <->
  (List.length previous < List.length current)%nat /\
  (forall (i : nat) (p c : string),
      previous !! i = Some p -> current !! i = Some c ->
      GoStrings.gt c p = false).
Proof.
  revert previous. induction current as [|c current IH]; intros previous.
  - rewrite existsNewerVersion_nil. split.
    + intros [msg H]. discriminate.
    + intros [Hlen _]. simpl in Hlen. lia.
  - destruct previous as [|p previous].
    + rewrite existsNewerVersion_short. split.
      * intros _. split; [simpl; lia|]. intros i p' c' Hp. discriminate.
      * intros _. eexists. reflexivity.
    + rewrite existsNewerVersion_cons. split.
      * destruct (GoStrings.gt c p) eqn:Hgt; [intros [msg H]; discriminate|].
        intros Hpanic. apply IH in Hpanic as [Hlen Hle].
        split; [simpl; lia|].
        intros [|i] p' c' Hp Hc; simpl in Hp, Hc.
        -- congruence.
        -- eapply Hle; eassumption.
      * intros [Hlen Hle].
        rewrite (Hle 0%nat p c eq_refl eq_refl).
        apply IH. split; [simpl in Hlen; lia|].
        intros i p' c' Hp Hc. apply (Hle (S i) p' c'); assumption.
Qed.

Lemma existsNewerVersion_panics_iff_witness :
  exists msg,
    existsNewerVersion baselineVersionParts (splitSemver "0.0.0.1") = Panic msg.
Proof.
  apply (proj2 (existsNewerVersion_panics_iff baselineVersionParts
                  (splitSemver "0.0.0.1"))).
  split; [vm_compute; lia|].
  intros [|[|[|[|i]]]] p c Hp Hc; vm_compute in Hp, Hc; try discriminate;
    injection Hp as <-; injection Hc as <-; reflexivity.
Defined.

(** C10, the input named in the claim: with the remote tag [1.2.3.4] and the
    baseline [0.0.0] the first component already decides, and the check
    answers [true] without reading beyond the baseline. *)
Lemma existsNewerVersion_four_parts_no_panic :
  List.length (splitSemver "1.2.3.4") = 4%nat /\
  List.length baselineVersionParts = 3%nat /\
  existsNewerVersion baselineVersionParts (splitSemver "1.2.3.4") = Ok true.
Proof. repeat split; reflexivity. Qed.

(** C1.  The check answers [true] as soon as some component of the remote
    version is greater than the one of the baseline, whatever the components
    before it: with the marker at [2.0.0] and the release [v1.9.9] it finds
    "9" > "0" at the second component, where the positional comparison
    [diffSemvers] says that 2.0.0 is the greater version, and the run
    downloads the archive and records [1.9.9]. *)
Theorem existsNewerVersion_older_release :
  existsNewerVersion (splitSemver "2.0.0")
                     (splitSemver (sanitizeVersion "v1.9.9")) = Ok true /\
  diffSemvers ("2", "0", "0") ("1", "9", "9") = 1 /\
  let run := main (sample_env "v1.9.9" ["swagger-ui"] false)
                  (sample_world true (MarkerData ("version: 2.0.0" ++ newline)))
  in
  fst run = Ok tt /\
  requests (snd run) = [SwaggerReleasesURL; sample_tarball] /\
  marker (snd run) = MarkerData ("version: 1.9.9" ++ newline).
Proof. repeat split; vm_compute; reflexivity. Qed.

(** ** Version parsing *)

Lemma Atoi_String (c : ascii) (rest : string) :
  GoStrings.Atoi (String c rest) =
  let '(neg, body) :=
    if Ascii.eqb c "-" then (true, rest)
    else if Ascii.eqb c "+" then (false, rest)
    else (false, String c rest) in
  match body with
  | EmptyString => None
  | _ =>
      match GoStrings.digits 0 body with
      | None => None
      | Some un =>
          let n := if neg then - un else un in
          if (GoStrings.minInt <=? n) && (n <=? GoStrings.maxInt)
          then Some n else None
      end
  end.
Proof. destruct c as [[] [] [] [] [] [] [] []]; reflexivity. Qed.

Lemma is_digit_not_dot (c : ascii) :
  GoStrings.is_digit c = true -> c <> "."%char.
Proof. intros H ->. discriminate H. Qed.

Lemma digits_free (s : string) (acc n : Z) :
  GoStrings.digits acc s = Some n -> free_of "." s.
Proof.
  revert acc. induction s as [|c rest IH]; intros acc; simpl; [trivial|].
  destruct (GoStrings.is_digit c) eqn:Hc; [|discriminate].
  intros H. split; [apply is_digit_not_dot, Hc|eapply IH, H].
Qed.

Lemma Atoi_free (part : string) (n : Z) :
  GoStrings.Atoi part = Some n -> free_of "." part.
Proof.
  destruct part as [|c rest]; [intros _; exact I|].
  rewrite Atoi_String.
  destruct (Ascii.eqb c "-") eqn:Hminus;
    [|destruct (Ascii.eqb c "+") eqn:Hplus].
  - apply Ascii.eqb_eq in Hminus as ->.
    destruct rest as [|d rest]; [discriminate|].
    destruct (GoStrings.digits 0 (String d rest)) eqn:Hd; [|discriminate].
    intros _. split; [discriminate|eapply digits_free, Hd].
  - apply Ascii.eqb_eq in Hplus as ->.
    destruct rest as [|d rest]; [discriminate|].
    destruct (GoStrings.digits 0 (String d rest)) eqn:Hd; [|discriminate].
    intros _. split; [discriminate|eapply digits_free, Hd].
  - destruct (GoStrings.digits 0 (String c rest)) eqn:Hd; [|discriminate].
    intros _. eapply digits_free, Hd.
Qed.

Lemma isVersionValueValid_parts (version : string) :
  isVersionValueValid version = true <->
  Forall component_ok (GoStrings.Split version ".").
Proof.
  unfold isVersionValueValid.
  induction (GoStrings.Split version ".") as [|part parts IH].
  - split; [constructor|reflexivity].
  - destruct (GoStrings.Atoi part) as [n|] eqn:Hn.
    + destruct (n <? 0) eqn:Hneg.
      * split; [discriminate|].
        intros H. inversion H as [|? ? [m [Hm Hpos]] _]; subst.
        apply Z.ltb_lt in Hneg. rewrite Hn in Hm. injection Hm as ->. lia.
      * rewrite IH. split.
        -- intros H. constructor; [|exact H].
           exists n. split; [exact Hn|apply Z.ltb_ge, Hneg].
        -- intros H. inversion H; assumption.
    + split; [discriminate|].
      intros H. inversion H as [|? ? [m [Hm _]] _]; subst.
      rewrite Hn in Hm. discriminate.
Qed.

(** C9, as amended.  Version parsing drops a leading [v], and only a [v];
    the rest is split at the dots, and the version is valid exactly when
    [Atoi] reads every piece as an [int] that is not negative.  Any number
    of pieces will do: every list of such pieces, joined by dots, is a valid
    version. *)
Theorem version_parsing :
  (forall raw : string,
      sanitizeVersion raw =
      match raw with
      | String "v"%char rest => rest
      | _ => raw
      end) /\
  (forall version : string,
      isVersionValueValid version = true <->
      Forall component_ok (GoStrings.Split version ".")) /\
  (forall parts : list string,
      parts <> [] -> Forall component_ok parts ->
      splitSemver (GoStrings.Join parts ".") = parts /\
      isVersionValueValid (GoStrings.Join parts ".") = true).
Proof.
  split; [exact sanitizeVersion_spec|].
  split; [exact isVersionValueValid_parts|].
  intros parts Hne Hok.
  assert (Hsplit : GoStrings.Split (GoStrings.Join parts ".") "." = parts).
  { apply Split_Join; [exact Hne|].
    eapply Forall_impl; [exact Hok|].
    intros part [n [Hn _]]. eapply Atoi_free, Hn. }
  split; [exact Hsplit|].
  apply isVersionValueValid_parts. rewrite Hsplit. exact Hok.
Qed.

Ltac components_ok :=
  repeat first
    [ apply List.Forall_nil
    | apply List.Forall_cons;
      [eexists; split; [vm_compute; reflexivity|vm_compute; discriminate]|] ].

Lemma version_parsing_witness :
  sanitizeVersion "v1.2.3" = "1.2.3" /\
  isVersionValueValid "1.2.3.4" = true /\
  isVersionValueValid "7" = true.
Proof.
  split; [exact (proj1 version_parsing "v1.2.3")|].
  split.
  - apply (proj2 (proj2 version_parsing) ["1"; "2"; "3"; "4"]);
      [discriminate|components_ok].
  - apply (proj2 (proj2 version_parsing) ["7"]);
      [discriminate|components_ok].
Defined.

(** C9, the claim as stated fails: a leading character that is not a digit
    and not a [v] is kept, so [x1.2.3] is invalid although every piece of
    what follows the [x] is a number. *)
Lemma sanitizeVersion_keeps_other_prefix :
  ~ (forall (c : ascii) (rest : string),
        GoStrings.is_digit c = false ->
        sanitizeVersion (String c rest) = rest /\
        (isVersionValueValid (sanitizeVersion (String c rest)) = true <->
         Forall component_ok (GoStrings.Split rest "."))).
Proof.
  intros H. destruct (H "x"%char "1.2.3" eq_refl) as [Hstrip _].
  discriminate Hstrip.
Qed.

(** ** Paths *)

Section CleanLoop.

Local Open Scope list_scope.

Lemma clean_loop_app (rooted : bool) (a b out : list string) :
  GoPath.clean_loop rooted out (a ++ b) =
  GoPath.clean_loop rooted (rev (GoPath.clean_loop rooted out a)) b.
Proof.
  revert out. induction a as [|s a IH]; intros out.
  - simpl. rewrite rev_involutive. reflexivity.
  - cbn [app GoPath.clean_loop].
    destruct (String.eqb s "."); [apply IH|].
    destruct (String.eqb s "..").
    + destruct out as [|top out'].
      * destruct rooted; apply IH.
      * destruct (String.eqb top ".."); apply IH.
    + apply IH.
Qed.

(** Without [..] elements nothing is popped. *)
Lemma clean_loop_plain (rooted : bool) (segs out : list string) :
  Forall (fun s => String.eqb s ".." = false) segs ->
  GoPath.clean_loop rooted out segs =
  rev out ++ List.filter (fun s => negb (String.eqb s ".")) segs.
Proof.
  revert out. induction segs as [|s segs IH]; intros out Hplain.
  - simpl. rewrite app_nil_r. reflexivity.
  - inversion Hplain as [|? ? Hs Hrest]; subst.
    cbn [GoPath.clean_loop List.filter].
    destruct (String.eqb s ".") eqn:Hdot; cbn [negb].
    + apply IH, Hrest.
    + rewrite Hs, (IH _ Hrest). cbn [rev].
      rewrite <- app_assoc. reflexivity.
Qed.

(** One element pushed on the stack, when it is neither [.] nor [..]. *)
Lemma clean_loop_push (rooted : bool) (s : string) (out : list string) :
  String.eqb s "." = false -> String.eqb s ".." = false ->
  rev (GoPath.clean_loop rooted out [s]) = s :: out.
Proof.
  intros Hdot Hdotdot. cbn [GoPath.clean_loop].
  rewrite Hdot, Hdotdot. apply rev_involutive.
Qed.

Lemma clean_loop_cons (rooted : bool) (s : string) (segs out : list string) :
  GoPath.clean_loop rooted out (s :: segs) =
  GoPath.clean_loop rooted (rev (GoPath.clean_loop rooted out [s])) segs.
Proof. apply (clean_loop_app rooted [s] segs out). Qed.

Section Idempotent.

Variable rooted : bool.
Variable base : list string.
Hypothesis Hbase : rooted = true -> base = [].

(** Cleaning below [base] what was cleaned on its own is cleaning it
    below [base]: the stack [out] of the inner run corresponds to the
    stack [rev (clean_loop true base (rev out))] of the outer one. *)
Lemma clean_loop_inner (segs out : list string) :
  Forall (fun s => String.eqb s "." = false) out ->
  GoPath.clean_loop true base (GoPath.clean_loop rooted out segs) =
  GoPath.clean_loop true
    (rev (GoPath.clean_loop true base (rev out))) segs.
Proof.
  revert out. induction segs as [|s segs IH]; intros out Hout.
  - simpl. rewrite rev_involutive. reflexivity.
  - assert (Hpush : Forall (fun s => String.eqb s "." = false) (s :: out) ->
            GoPath.clean_loop true base
              (GoPath.clean_loop rooted (s :: out) segs) =
            GoPath.clean_loop true
              (rev (GoPath.clean_loop true base (rev out))) (s :: segs)).
    { intros Hout'. rewrite (IH _ Hout').
      rewrite (clean_loop_cons true s segs). cbn [rev].
      rewrite (clean_loop_app true (rev out) [s] base). reflexivity. }
    set (outer := GoPath.clean_loop true
                    (rev (GoPath.clean_loop true base (rev out)))
                    (s :: segs)) in *.
    cbn [GoPath.clean_loop].
    destruct (String.eqb s ".") eqn:Hdot.
    { rewrite (IH _ Hout). subst outer.
      cbn [GoPath.clean_loop]. rewrite Hdot. reflexivity. }
    destruct (String.eqb s "..") eqn:Hdotdot.
    + apply String.eqb_eq in Hdotdot. subst s.
      destruct out as [|top out'].
      * destruct rooted eqn:Hr.
        -- rewrite (IH _ Hout). subst outer.
           cbn [rev GoPath.clean_loop app].
           rewrite (Hbase eq_refl). reflexivity.
        -- apply Hpush. constructor; [reflexivity|constructor].
      * inversion Hout as [|? ? Htop Hout']; subst.
        destruct (String.eqb top "..") eqn:Htopdd.
        -- apply Hpush. constructor; [reflexivity|exact Hout].
        -- rewrite (IH _ Hout'). subst outer. cbn [rev].
           rewrite (clean_loop_app true (rev out') [top] base).
           rewrite (clean_loop_push true top _ Htop Htopdd).
           cbn [GoPath.clean_loop]. rewrite Htopdd. reflexivity.
    + apply Hpush. constructor; [exact Hdot|exact Hout].
Qed.

Lemma clean_loop_idempotent (segs : list string) :
  GoPath.clean_loop true base (GoPath.clean_loop rooted [] segs) =
  GoPath.clean_loop true base segs.
Proof.
  rewrite clean_loop_inner by constructor.
  cbn [rev GoPath.clean_loop]. rewrite rev_involutive. reflexivity.
Qed.

End Idempotent.

End CleanLoop.

Section Segments.

Local Open Scope list_scope.

Let nonempty : string -> bool := fun s => negb (String.eqb s "").
Let nondot : string -> bool := fun s => negb (String.eqb s ".").

Lemma filter_nonempty_elements (pieces : list string) :
  Forall (free_of "/") pieces ->
  Forall path_element (List.filter nonempty pieces).
Proof.
  induction 1 as [|piece pieces Hfree _ IH]; simpl; [constructor|].
  unfold nonempty at 1.
  destruct (String.eqb piece "") eqn:Hpiece; simpl; [exact IH|].
  constructor; [split; assumption|exact IH].
Qed.

Lemma segments_elements (p : string) :
  Forall path_element (GoPath.segments p).
Proof. apply filter_nonempty_elements, Split_pieces_free. Qed.

Lemma filter_nonempty_id (segs : list string) :
  Forall path_element segs -> List.filter nonempty segs = segs.
Proof.
  induction 1 as [|s segs [Hs _] _ IH]; simpl; [reflexivity|].
  unfold nonempty at 1. rewrite Hs. simpl. rewrite IH. reflexivity.
Qed.

Lemma segments_Join (segs : list string) :
  Forall path_element segs ->
  GoPath.segments (GoStrings.Join segs "/") = segs.
Proof.
  intros Hsegs. unfold GoPath.segments.
  destruct segs as [|s segs]; [reflexivity|].
  rewrite (Split_Join "/"); [apply filter_nonempty_id, Hsegs|discriminate|].
  eapply Forall_impl; [exact Hsegs|]. intros x [_ Hx]. exact Hx.
Qed.

Lemma segments_slash (p : string) :
  GoPath.segments (String "/" p) = GoPath.segments p.
Proof. reflexivity. Qed.

Lemma segments_app (a b : string) :
  GoPath.segments (a ++ String "/" b)%string =
  GoPath.segments a ++ GoPath.segments b.
Proof.
  unfold GoPath.segments. rewrite Split_app. apply List.filter_app.
Qed.

Lemma is_rooted_String (c : ascii) (rest : string) :
  GoPath.is_rooted (String c rest) = Ascii.eqb c "/".
Proof. destruct c as [[] [] [] [] [] [] [] []]; reflexivity. Qed.

Lemma is_rooted_app (a b : string) :
  a <> "" -> GoPath.is_rooted (a ++ b)%string = GoPath.is_rooted a.
Proof.
  destruct a as [|c a]; [congruence|]. intros _.
  change (String c a ++ b)%string with (String c (a ++ b)%string).
  rewrite !is_rooted_String. reflexivity.
Qed.

Lemma is_rooted_Join (segs : list string) :
  Forall path_element segs ->
  GoPath.is_rooted (GoStrings.Join segs "/") = false.
Proof.
  destruct 1 as [|s segs [Hs Hfree] _]; [reflexivity|].
  destruct s as [|c s]; [discriminate Hs|].
  destruct Hfree as [Hc _]. apply Ascii.eqb_neq in Hc.
  unfold GoStrings.Join.
  destruct segs; cbn [String.concat];
    [|rewrite is_rooted_app by discriminate];
    rewrite is_rooted_String; exact Hc.
Qed.

Lemma clean_loop_elements (rooted : bool) (segs out : list string) :
  Forall path_element out -> Forall path_element segs ->
  Forall path_element (GoPath.clean_loop rooted out segs).
Proof.
  revert out. induction segs as [|s segs IH]; intros out Hout Hsegs.
  - simpl. apply List.Forall_rev, Hout.
  - inversion Hsegs as [|? ? Hs Hrest]; subst. cbn [GoPath.clean_loop].
    destruct (String.eqb s "."); [apply IH; assumption|].
    destruct (String.eqb s "..").
    + destruct out as [|top out'].
      * destruct rooted; apply IH; try assumption; repeat constructor;
          apply Hs.
      * inversion Hout; subst.
        destruct (String.eqb top ".."); apply IH; try assumption.
        constructor; assumption.
    + apply IH; [constructor|]; assumption.
Qed.

Lemma filter_nondot_plain (segs : list string) :
  Forall (fun s => String.eqb s ".." = false) segs ->
  Forall (fun s => String.eqb s ".." = false) (List.filter nondot segs).
Proof.
  induction 1 as [|s segs Hs _ IH]; simpl; [constructor|].
  destruct (nondot s); [constructor|]; assumption.
Qed.

Lemma filter_nondot_twice (segs : list string) :
  List.filter nondot (List.filter nondot segs) = List.filter nondot segs.
Proof.
  induction segs as [|s segs IH]; simpl; [reflexivity|].
  destruct (nondot s) eqn:Hs; simpl; [rewrite Hs, IH|]; auto.
Qed.

Lemma has_dotdot_false (name : string) :
  Archive.has_dotdot name = false ->
  Forall (fun s => String.eqb s ".." = false) (GoPath.segments name).
Proof.
  unfold Archive.has_dotdot.
  induction (GoPath.segments name) as [|s segs IH]; simpl; [constructor|].
  destruct (String.eqb s "..") eqn:Hs; [discriminate|].
  intros H. constructor; [exact Hs|apply IH, H].
Qed.

(** The cleaned form of a relative path, read back. *)
Lemma Clean_relative_segments (segs base : list string) :
  Forall path_element segs ->
  let q := match segs with
           | [] => "."
           | _ => GoStrings.Join segs "/"
           end in
  GoPath.is_rooted q = false /\
  GoPath.clean_loop true base (GoPath.segments q) =
  GoPath.clean_loop true base segs.
Proof.
  intros Hsegs. destruct segs as [|s segs]; [split; reflexivity|].
  split; [apply is_rooted_Join, Hsegs|].
  rewrite segments_Join by exact Hsegs. reflexivity.
Qed.

(** What the operating system resolves the joined path to, for a name
    without [..] elements: the directory, then the elements of the name. *)
Lemma resolve_Join_plain (fs : Archive.FS) (dst name : string) :
  dst <> "" -> Archive.has_dotdot name = false ->
  Archive.resolve fs (GoPath.Join [dst; name]) =
  Archive.resolve fs dst ++ List.filter nondot (GoPath.segments name).
Proof.
  intros Hdst Hname.
  assert (Hplain := has_dotdot_false name Hname).
  assert (Hjoin : GoPath.Join [dst; name]
                  = GoPath.Clean (dst ++ String "/" name)%string).
  { cbn [GoPath.Join]. destruct (String.eqb dst "") eqn:He; [|reflexivity].
    apply String.eqb_eq in He. congruence. }
  rewrite Hjoin. clear Hjoin.
  set (p := (dst ++ String "/" name)%string).
  assert (Hrooted : GoPath.is_rooted p = GoPath.is_rooted dst)
    by (apply is_rooted_app, Hdst).
  set (inner := GoPath.clean_loop (GoPath.is_rooted dst) []
                  (GoPath.segments dst)).
  set (tail := List.filter nondot (GoPath.segments name)).
  assert (Hsegs : GoPath.clean_segments p = inner ++ tail).
  { unfold GoPath.clean_segments. rewrite Hrooted. unfold p.
    rewrite segments_app.
    rewrite clean_loop_app, clean_loop_plain by exact Hplain.
    rewrite rev_involutive. reflexivity. }
  assert (Helems : Forall path_element (inner ++ tail)).
  { rewrite <- Hsegs. apply clean_loop_elements;
      [constructor|apply segments_elements]. }
  assert (Htail : forall base,
             GoPath.clean_loop true base (inner ++ tail)
             = GoPath.clean_loop true base (GoPath.segments dst) ++ tail
             \/ GoPath.is_rooted dst = true /\ base <> []).
  { intros base.
    destruct (GoPath.is_rooted dst) eqn:Hr, base as [|b base];
      try (right; split; [reflexivity|discriminate]); left;
      rewrite clean_loop_app, clean_loop_plain
        by (apply filter_nondot_plain, Hplain);
      rewrite rev_involutive; unfold tail; rewrite filter_nondot_twice;
      f_equal; subst inner; apply clean_loop_idempotent; congruence. }
  unfold Archive.resolve, GoPath.Clean. rewrite Hrooted, Hsegs.
  destruct (GoPath.is_rooted dst) eqn:Hr.
  - change ("/" ++ GoStrings.Join (inner ++ tail) "/")%string
      with (String "/" (GoStrings.Join (inner ++ tail) "/")).
    cbn [GoPath.is_rooted].
    rewrite segments_slash, segments_Join by exact Helems.
    destruct (Htail []) as [H|[_ H]]; [exact H|congruence].
  - set (base := rev (GoPath.clean_loop true []
                        (GoPath.segments (Archive.cwd fs)))).
    destruct (Clean_relative_segments (inner ++ tail) base Helems)
      as [Hq Hback].
    cbv zeta in Hq, Hback. rewrite Hq, !clean_loop_app.
    fold base. rewrite Hback.
    destruct (Htail base) as [H|[H _]]; [exact H|discriminate].
Qed.

End Segments.

(** ** The archive extractor *)

Lemma substring_empty (n : nat) : String.substring n 0 "" = "".
Proof. destruct n; reflexivity. Qed.

Lemma append_empty_r (s : string) : (s ++ "")%string = s.
Proof.
  induction s as [|c s IH]; [reflexivity|].
  change (String c (s ++ "")%string = String c s). rewrite IH. reflexivity.
Qed.

Lemma overwrite_empty (data : string) : Archive.overwrite "" data = data.
Proof.
  unfold Archive.overwrite. cbn [String.length].
  replace (0 - String.length data)%nat with 0%nat by lia.
  rewrite substring_empty. apply append_empty_r.
Qed.

(** C2, as amended.  [Untar] checks no path: a regular-file entry is written
    where [filepath.Join(dst, name)] points, whenever the directory above
    that place exists and the place is not a directory itself, inside the
    destination or not, and [Untar] reports no error.  What keeps an entry
    inside the destination is the join alone: for a destination that is not
    the empty string and a name without [..] elements, an absolute name
    included, the joined path lies in the destination. *)
Theorem Untar_writes_at_joined_path :
  (forall (fs : Archive.FS) (dst : string) (header : Archive.Header)
          (body : string),
      let place := Archive.resolve fs (GoPath.Join [dst; Archive.Name header]) in
      Archive.Typeflag header = Archive.TypeReg ->
      place <> [] ->
      Archive.lookup_node fs (removelast place) = Some Archive.Dir ->
      Archive.nodes fs !! place <> Some Archive.Dir ->
      Archive.Untar dst
        (Archive.Gzip [Archive.Entry header body false] Archive.EOF) fs =
      (None,
       Archive.mkFS (Archive.cwd fs)
         (<[ place :=
               match Archive.nodes fs !! place with
               | Some (Archive.File mode old) =>
                   Archive.File mode (Archive.overwrite old body)
               | _ => Archive.File (Archive.Mode header) body
               end ]> (Archive.nodes fs)))) /\
  (forall (fs : Archive.FS) (dst name : string),
      dst <> "" -> Archive.has_dotdot name = false ->
      Archive.inside fs dst (GoPath.Join [dst; name]) = true).
Proof.
  split.
  - intros fs dst header body place Htype Hplace Hparent Hnode.
    unfold Archive.Untar. cbn [Archive.Untar_loop]. rewrite Htype.
    unfold Archive.os_OpenFile. fold place.
    destruct place as [|s place'] eqn:Hp; [congruence|].
    rewrite <- Hp in *. rewrite Hparent.
    destruct (Archive.nodes fs !! place) as [[|mode old]|] eqn:Hlook;
      [congruence| |].
    + unfold Archive.io_Copy. rewrite Hlook. reflexivity.
    + unfold Archive.io_Copy. cbn [Archive.nodes Archive.cwd].
      rewrite lookup_insert_eq, insert_insert_eq, overwrite_empty.
      reflexivity.
  - intros fs dst name Hdst Hname. unfold Archive.inside.
    apply bool_decide_eq_true.
    rewrite (resolve_Join_plain fs dst name Hdst Hname).
    apply prefix_app_r. reflexivity.
Qed.

Lemma Untar_writes_at_joined_path_witness :
  Archive.Untar "./extracted" traversal_archive sample_fs =
  (None,
   Archive.mkFS "/work"
     (<[ ["etc"; "passthrough"] := Archive.File 420 "payload" ]>
        (Archive.nodes sample_fs))) /\
  Archive.inside sample_fs "./extracted"
    (GoPath.Join ["./extracted"; "/etc/passwd"]) = true.
Proof.
  split.
  - apply (proj1 Untar_writes_at_joined_path sample_fs "./extracted"
             traversal_header "payload").
    + reflexivity.
    + vm_compute. discriminate.
    + vm_compute. reflexivity.
    + vm_compute. discriminate.
  - apply (proj2 Untar_writes_at_joined_path sample_fs "./extracted"
             "/etc/passwd").
    + discriminate.
    + vm_compute. reflexivity.
Defined.

(** C2, the claim as stated fails: the entry [../../etc/passthrough] leaves
    the extraction directory [./extracted] of the working directory [/work],
    [Untar] reports no error, and the file [/etc/passthrough], which was not
    there, is written. *)
Lemma Untar_traversal_entry_written :
  Archive.inside sample_fs "./extracted"
    (GoPath.Join ["./extracted"; Archive.Name traversal_header]) = false /\
  fst (Archive.Untar "./extracted" traversal_archive sample_fs) = None /\
  Archive.nodes sample_fs !! ["etc"; "passthrough"] = None /\
  Archive.nodes (snd (Archive.Untar "./extracted" traversal_archive sample_fs))
    !! ["etc"; "passthrough"] = Some (Archive.File 420 "payload").
Proof. repeat split; vm_compute; reflexivity. Qed.

(** ** The run *)

Arguments GoPath.Join : simpl never.

(** Symbolic execution of a piece of [main], in the equation [H] that names
    its result: the lines printed are put aside, the definitions unfolded,
    and the run is split at every test, innermost test first. *)
Ltac hide_lines H :=
  repeat match type of H with
         | context [warn ?s] =>
             tryif is_var s then fail
             else (let x := fresh "line" in set (x := s) in H; clearbody x)
         | context [@logErrorFatal ?A ?s] =>
             tryif is_var s then fail
             else (let x := fresh "line" in set (x := s) in H; clearbody x)
         | context [goodLuck ?s] =>
             tryif is_var s then fail
             else (let x := fresh "line" in set (x := s) in H; clearbody x)
         | context [println ?s] =>
             tryif is_var s then fail
             else (let x := fresh "line" in set (x := s) in H; clearbody x)
         end.

Ltac unfold_prog_in H :=
  unfold main_update, main_compare, main_marker,
         parseArgs, outputDirectoryExists, doesVersionFileExists,
         getVersionFileData, createOutputDirectory, fetchLatestReleaseInfo,
         downloadTheTarball, extract, copyContentsToOutput, clearRemaining,
         setLatestVersion, logErrorFatal, logError, warn, goodLuck, println,
         request, bind, ret, os_Exit, panic, lift,
         set_out_dir, set_marker, set_temp_tar, set_extracted, add_copy in H.

Ltac branch_in H :=
  match type of H with
  | context [match ?x with _ => _ end] =>
      lazymatch x with
      | context [match _ with _ => _ end] => fail
      | _ => destruct x eqn:?
      end
  end.

Ltac start_in H := hide_lines H; unfold_prog_in H; cbn in H.
Ltac run_in H := start_in H; repeat (branch_in H; cbn in H).

Ltac run2_in H1 H2 :=
  start_in H1; start_in H2; repeat (branch_in H1; cbn in H1; cbn in H2).

Ltac close_run :=
  simplify_eq; cbn; intros;
  repeat match goal with
         | H : negb ?a = _ |- _ => destruct a; simpl in H; try discriminate H
         | H : ?x = _ |- context [match ?x with _ => _ end] => rewrite H
         end;
  repeat split; intros; simplify_eq;
  first [reflexivity | congruence | tauto | idtac].

Ltac use_failure H :=
  repeat match type of H with
         | _ \/ _ => destruct H as [H|H]
         | exists _, _ => destruct H as [? H]
         | _ /\ _ => let H' := fresh in destruct H as [H' H]
         end.

Ltac use_untar :=
  repeat match goal with
         | H1 : untar _ _ _ = _, H2 : context [untar _ _ _] |- _ =>
             rewrite H1 in H2; cbn in H2
         | H1 : default [] _ !! 0%nat = _,
           H2 : context [default [] _ !! 0%nat] |- _ =>
             rewrite H1 in H2
         end.

(** How [main] is put together from its pieces. *)
Lemma main_eq (e : Env) (w : World) :
  main e w =
  match main_check e w with
  | (Ok (outputPath, response, tagName), w1) =>
      main_update e outputPath response tagName w1
  | (Exit code, w1) => (Exit code, w1)
  | (Panic msg, w1) => (Panic msg, w1)
  end.
Proof.
  unfold main, bind. destruct (main_check e w) as [[[[out resp] tag]| |] w1];
    reflexivity.
Qed.

Lemma main_check_eq (e : Env) (w : World) :
  main_check e w =
  match parseArgs e w with
  | (Ok out, w0) =>
      let outputPath := fst (getAbsoluteOutputPath e out) in
      let w0' := snd (warn ("specified output directory: ("
                            ++ outputPath ++ ")") w0) in
      match main_marker e w0' with
      | (Ok previousVersionParts, w1) =>
          match main_compare e previousVersionParts w1 with
          | (Ok (response, tagName), w2) =>
              (Ok (outputPath, response, tagName), w2)
          | (Exit code, w2) => (Exit code, w2)
          | (Panic msg, w2) => (Panic msg, w2)
          end
      | (Exit code, w1) => (Exit code, w1)
      | (Panic msg, w1) => (Panic msg, w1)
      end
  | (Exit code, w0) => (Exit code, w0)
  | (Panic msg, w0) => (Panic msg, w0)
  end.
Proof.
  unfold main_check, bind at 1.
  destruct (parseArgs e w) as [[out| |] w0]; try reflexivity.
  destruct (getAbsoluteOutputPath e out) as [outputPath err].
  cbn [fst]. unfold bind at 1.
  destruct (warn _ w0) as [[[]| |] w0'] eqn:Hwarn; try discriminate Hwarn.
  cbn [snd]. unfold bind at 1.
  destruct (main_marker e w0') as [[prev| |] w1]; try reflexivity.
  unfold bind at 1.
  destruct (main_compare e prev w1) as [[[resp tag]| |] w2]; reflexivity.
Qed.

Lemma warn_frame (line : string) (w : World) :
  out_dir (snd (warn line w)) = out_dir w /\
  marker (snd (warn line w)) = marker w /\
  temp_tar (snd (warn line w)) = temp_tar w /\
  extracted (snd (warn line w)) = extracted w /\
  copies (snd (warn line w)) = copies w /\
  requests (snd (warn line w)) = requests w.
Proof. destruct w. repeat split; reflexivity. Qed.

Lemma parseArgs_frame (e : Env) (w : World) :
  out_dir (snd (parseArgs e w)) = out_dir w /\
  marker (snd (parseArgs e w)) = marker w /\
  temp_tar (snd (parseArgs e w)) = temp_tar w /\
  extracted (snd (parseArgs e w)) = extracted w /\
  copies (snd (parseArgs e w)) = copies w /\
  requests (snd (parseArgs e w)) = requests w /\
  fst (parseArgs e w) =
    match docopt_out e with
    | None => Exit 1
    | Some out => Ok (if Z.of_nat (String.length out) =? 0 then "./" else out)
    end.
Proof.
  destruct (parseArgs e w) as [r w'] eqn:Hrun. destruct w.
  run_in Hrun; close_run.
Qed.

Lemma main_marker_frame (e : Env) (w : World) :
  marker (snd (main_marker e w)) = marker w /\
  temp_tar (snd (main_marker e w)) = temp_tar w /\
  extracted (snd (main_marker e w)) = extracted w /\
  copies (snd (main_marker e w)) = copies w /\
  requests (snd (main_marker e w)) = requests w /\
  (out_dir w = true -> out_dir (snd (main_marker e w)) = true) /\
  (forall prev, fst (main_marker e w) = Ok prev ->
                out_dir (snd (main_marker e w)) = true) /\
  (forall code, fst (main_marker e w) = Exit code -> code = 1) /\
  (forall msg, fst (main_marker e w) <> Panic msg).
Proof.
  destruct (main_marker e w) as [r w'] eqn:Hrun. destruct w.
  run_in Hrun; close_run.
Qed.

(** The version found depends on the output directory and on the version
    file alone. *)
Lemma main_marker_result (e : Env) (w1 w2 : World) :
  out_dir w1 = out_dir w2 -> marker w1 = marker w2 ->
  fst (main_marker e w1) = fst (main_marker e w2).
Proof.
  destruct (main_marker e w1) as [r1 w1'] eqn:Hrun1.
  destruct (main_marker e w2) as [r2 w2'] eqn:Hrun2.
  destruct w1, w2. cbn. intros -> ->.
  run2_in Hrun1 Hrun2; close_run.
Qed.

Lemma main_marker_unusable (e : Env) (w : World) :
  out_dir w = true -> marker_unusable e (marker w) ->
  fst (main_marker e w) = Ok baselineVersionParts.
Proof.
  destruct (main_marker e w) as [r w'] eqn:Hrun.
  destruct w as [dir m tmp ext cps reqs con]. cbn. intros -> Hm.
  unfold marker_unusable in Hm.
  unfold main_marker, isVersionFileValid, doesVersionFileContainVersionKey
    in Hrun.
  run_in Hrun; simplify_eq; try reflexivity.
  all: destruct Hm as [Hm|Hm]; [rewrite Hm in *; discriminate|congruence].
Qed.

Lemma main_compare_spec (e : Env) (prev : list string) (w : World) :
  out_dir (snd (main_compare e prev w)) = out_dir w /\
  marker (snd (main_compare e prev w)) = marker w /\
  temp_tar (snd (main_compare e prev w)) = temp_tar w /\
  extracted (snd (main_compare e prev w)) = extracted w /\
  copies (snd (main_compare e prev w)) = copies w /\
  requests (snd (main_compare e prev w)) =
    (requests w ++ [SwaggerReleasesURL])%list /\
  fst (main_compare e prev w) =
    match release_info e with
    | None => Exit 1
    | Some response =>
        let tagName := sanitizeVersion (TagName response) in
        match existsNewerVersion prev (splitSemver tagName) with
        | Ok true => Ok (response, tagName)
        | Ok false => Exit 0
        | Exit code => Exit code
        | Panic msg => Panic msg
        end
    end.
Proof.
  destruct (main_compare e prev w) as [r w'] eqn:Hrun. destruct w.
  run_in Hrun; close_run.
Qed.

Ltac refute_failure H :=
  exfalso; use_failure H; simplify_eq; use_untar; congruence.

(** A failing step ends the update with a failure status, the version file
    untouched. *)
Lemma main_update_failure (e : Env) (out : string) (resp : GithubResponse)
    (tag : string) (w : World) :
  download_fails e resp \/ extract_fails e resp w \/ relocate_fails e resp w ->
  exit_status (fst (main_update e out resp tag w)) <> 0 /\
  marker (snd (main_update e out resp tag w)) = marker w.
Proof.
  unfold download_fails, extract_fails, relocate_fails, dist_of.
  destruct (main_update e out resp tag w) as [r w'] eqn:Hrun.
  destruct w as [dir m tmp ext cps reqs con]. cbn [extracted marker fst snd].
  intros H. run_in Hrun; simplify_eq; cbn.
  all: try (split; [discriminate|reflexivity]).
  all: refute_failure H.
Qed.

(** The version file changes only at the end of an update in which every
    step succeeded. *)
Lemma main_update_marker (e : Env) (out : string) (resp : GithubResponse)
    (tag : string) (w : World) :
  marker (snd (main_update e out resp tag w)) <> marker w ->
  fst (main_update e out resp tag w) = Ok tt /\
  (exists data : string,
      yaml_Marshal e (mkVersionFile tag) = Some data /\
      marker (snd (main_update e out resp tag w)) = MarkerData data) /\
  ~ download_fails e resp /\ ~ extract_fails e resp w /\
  ~ relocate_fails e resp w.
Proof.
  unfold download_fails, extract_fails, relocate_fails, dist_of.
  destruct (main_update e out resp tag w) as [r w'] eqn:Hrun.
  destruct w as [dir m tmp ext cps reqs con]. cbn [extracted marker fst snd].
  run_in Hrun; simplify_eq; cbn; intros Hm; try congruence.
  all: split; [reflexivity|]; split; [eexists; split; reflexivity|].
  all: repeat split; intros H; refute_failure H.
Qed.

(** After an update that succeeded the archive is gone, and so is the
    extraction directory when its removal did not fail. *)
Lemma main_update_cleans (e : Env) (out : string) (resp : GithubResponse)
    (tag : string) (w : World) :
  fst (main_update e out resp tag w) = Ok tt ->
  temp_tar (snd (main_update e out resp tag w)) = None /\
  (removeall_fails e = false ->
   extracted (snd (main_update e out resp tag w)) = None).
Proof.
  destruct (main_update e out resp tag w) as [r w'] eqn:Hrun.
  destruct w as [dir m tmp ext cps reqs con]. cbn [fst snd].
  run_in Hrun; simplify_eq; cbn; intros Hr; try discriminate Hr.
  all: split; [reflexivity|congruence].
Qed.

(** After an extraction or a relocation that failed the archive and what
    was extracted are still there. *)
Lemma main_update_leaves (e : Env) (out : string) (resp : GithubResponse)
    (tag : string) (w : World) :
  extract_fails e resp w \/ relocate_fails e resp w ->
  exists body : string,
    http_get e (TarballURL resp) = Some body /\
    temp_tar (snd (main_update e out resp tag w)) = Some body /\
    extracted (snd (main_update e out resp tag w)) =
      fst (untar e body (extracted w)).
Proof.
  unfold extract_fails, relocate_fails, dist_of.
  destruct (main_update e out resp tag w) as [r w'] eqn:Hrun.
  destruct w as [dir m tmp ext cps reqs con]. cbn [extracted marker fst snd].
  intros H. run_in Hrun; simplify_eq; cbn.
  all: try (refute_failure H).
  all: eexists; split; [reflexivity|]; cbn;
    match goal with Hu : untar _ _ _ = _ |- _ => rewrite Hu end;
    split; reflexivity.
Qed.

(** The relocation takes the first entry of the extraction directory and
    looks at no other. *)
Lemma main_update_first_entry (e : Env) (out : string) (resp : GithubResponse)
    (tag : string) (w : World) (body name : string) (others : list string) :
  http_get e (TarballURL resp) = Some body ->
  write_temp_fails e = false ->
  untar e body (extracted w) = (Some (name :: others), false) ->
  copies (snd (main_update e out resp tag w)) =
    (copies w ++ [(dist_of name, negb (copy_fails e (dist_of name)))])%list /\
  (copy_fails e (dist_of name) = true ->
   fst (main_update e out resp tag w) = Exit 1 /\
   marker (snd (main_update e out resp tag w)) = marker w) /\
  (copy_fails e (dist_of name) = false ->
   remove_fails e = false -> write_marker_fails e = false ->
   out_dir w = true ->
   forall data : string,
     yaml_Marshal e (mkVersionFile tag) = Some data ->
     fst (main_update e out resp tag w) = Ok tt /\
     marker (snd (main_update e out resp tag w)) = MarkerData data).
Proof.
  unfold dist_of.
  destruct (main_update e out resp tag w) as [r w'] eqn:Hrun.
  destruct w as [dir m tmp ext cps reqs con].
  cbn [extracted marker out_dir copies fst snd].
  intros Hget Hwrite Huntar.
  start_in Hrun. rewrite Hget in Hrun. cbn in Hrun.
  rewrite Hwrite in Hrun. cbn in Hrun. rewrite Huntar in Hrun. cbn in Hrun.
  repeat (branch_in Hrun; cbn in Hrun).
  all: simplify_eq; cbn.
  all: repeat split; intros; simplify_eq; try reflexivity; try congruence.
  all: try match goal with
           | H : negb ?d || _ = _ |- _ => simpl in H; congruence
           end.
Qed.

(** The update reads neither the version file nor the console. *)
Lemma main_update_insensitive (e : Env) (out : string) (resp : GithubResponse)
    (tag : string) (w1 w2 : World) :
  same_but_marker w1 w2 ->
  fst (main_update e out resp tag w1) = fst (main_update e out resp tag w2) /\
  same_but_marker (snd (main_update e out resp tag w1))
                  (snd (main_update e out resp tag w2)) /\
  (marker (snd (main_update e out resp tag w1)) =
   marker (snd (main_update e out resp tag w2)) \/
   marker (snd (main_update e out resp tag w1)) = marker w1 /\
   marker (snd (main_update e out resp tag w2)) = marker w2).
Proof.
  unfold same_but_marker.
  destruct (main_update e out resp tag w1) as [r1 w1'] eqn:Hrun1.
  destruct (main_update e out resp tag w2) as [r2 w2'] eqn:Hrun2.
  destruct w1 as [dir1 m1 tmp1 ext1 cps1 reqs1 con1],
           w2 as [dir2 m2 tmp2 ext2 cps2 reqs2 con2].
  cbn. intros (-> & -> & -> & -> & ->).
  run2_in Hrun1 Hrun2; simplify_eq; cbn.
  all: repeat split; try reflexivity; try (right; split; reflexivity);
    left; reflexivity.
Qed.

(** [main] up to the decision: the files are left as they were, but for the
    output directory, which is created when it is missing; the release
    information is requested once the version file has been looked at; the
    result is decided by the version found and the release on offer. *)
Lemma main_check_spec (e : Env) (w : World) :
  marker (snd (main_check e w)) = marker w /\
  temp_tar (snd (main_check e w)) = temp_tar w /\
  extracted (snd (main_check e w)) = extracted w /\
  copies (snd (main_check e w)) = copies w /\
  (out_dir w = true -> out_dir (snd (main_check e w)) = true) /\
  fst (main_check e w) =
    match docopt_out e with
    | None => Exit 1
    | Some arg =>
        match fst (main_marker e w) with
        | Ok prev =>
            match release_info e with
            | None => Exit 1
            | Some response =>
                let tagName := sanitizeVersion (TagName response) in
                match existsNewerVersion prev (splitSemver tagName) with
                | Ok true =>
                    Ok (fst (getAbsoluteOutputPath e
                               (if Z.of_nat (String.length arg) =? 0
                                then "./" else arg)),
                        response, tagName)
                | Ok false => Exit 0
                | Exit code => Exit code
                | Panic msg => Panic msg
                end
            end
        | Exit code => Exit code
        | Panic msg => Panic msg
        end
    end /\
  requests (snd (main_check e w)) =
    match docopt_out e, fst (main_marker e w) with
    | Some _, Ok _ => (requests w ++ [SwaggerReleasesURL])%list
    | _, _ => requests w
    end /\
  (forall arg prev,
      docopt_out e = Some arg -> fst (main_marker e w) = Ok prev ->
      out_dir (snd (main_check e w)) = true).
Proof.
  rewrite main_check_eq.
  destruct (parseArgs_frame e w) as (Hd0 & Hm0 & Ht0 & Hx0 & Hc0 & Hr0 & Hres0).
  destruct (parseArgs e w) as [r0 w0]. cbn [fst snd] in *. subst r0.
  destruct (docopt_out e) as [arg|]; cbn [fst snd];
    [|repeat split; (congruence || discriminate)].
  set (out := if Z.of_nat (String.length arg) =? 0 then "./" else arg).
  cbv zeta.
  set (line := "specified output directory: ("
               ++ fst (getAbsoluteOutputPath e out) ++ ")").
  destruct (warn_frame line w0) as (Hd0' & Hm0' & Ht0' & Hx0' & Hc0' & Hr0').
  set (w0' := snd (warn line w0)) in *.
  assert (Hsame : fst (main_marker e w0') = fst (main_marker e w))
    by (apply main_marker_result; congruence).
  destruct (main_marker_frame e w0')
    as (Hm1 & Ht1 & Hx1 & Hc1 & Hr1 & Hd1 & Hok1 & _).
  rewrite <- Hsame.
  destruct (main_marker e w0') as [r1 w1]. cbn [fst snd] in *.
  destruct r1 as [prev| |]; cbn [fst snd];
    [|repeat split; (congruence || discriminate || auto)..].
  2: { intros. apply Hd1. congruence. }
  2: { intros. apply Hd1. congruence. }
  destruct (main_compare_spec e prev w1)
    as (Hd2 & Hm2 & Ht2 & Hx2 & Hc2 & Hr2 & Hres2).
  destruct (main_compare e prev w1) as [r2 w2]. cbn [fst snd] in *.
  subst r2.
  assert (Hdir : out_dir w2 = true) by (rewrite Hd2; apply (Hok1 prev eq_refl)).
  destruct (release_info e) as [resp|]; cbn zeta;
    [destruct (existsNewerVersion prev _) as [[|]| |]|];
    cbn [fst snd]; repeat split; intros; congruence.
Qed.

(** When the check decides for an update, the output directory is there and
    the release is the one on offer, its tag without the leading [v]. *)
Lemma main_check_ok (e : Env) (w : World) (out : string)
    (resp : GithubResponse) (tag : string) :
  fst (main_check e w) = Ok (out, resp, tag) ->
  out_dir (snd (main_check e w)) = true /\
  release_info e = Some resp /\
  tag = sanitizeVersion (TagName resp) /\
  requests (snd (main_check e w)) = (requests w ++ [SwaggerReleasesURL])%list /\
  exists prev : list string,
    fst (main_marker e w) = Ok prev /\
    existsNewerVersion prev (splitSemver tag) = Ok true.
Proof.
  destruct (main_check_spec e w) as (_ & _ & _ & _ & _ & Hres & Hreq & Hdir).
  rewrite Hres, Hreq. clear Hres Hreq.
  destruct (docopt_out e) as [arg|]; [|discriminate].
  destruct (fst (main_marker e w)) as [prev| |] eqn:Hprev; try discriminate.
  destruct (release_info e) as [resp'|]; [|discriminate]. cbv zeta.
  destruct (existsNewerVersion prev _) as [[|]| |] eqn:Hnewer;
    try discriminate.
  intros [= <- <- <-].
  repeat split; [apply (Hdir arg prev); reflexivity|].
  exists prev. split; [reflexivity|exact Hnewer].
Qed.

(** C3.  The version file is written as the last step of an update in which
    every step succeeded: when the download, the extraction or the
    relocation of a run that updates fails, the process ends with a failure
    status and the version file is as it was; and a run that changes the
    version file is a run that returned, in which none of these steps
    failed, and the file holds the version fetched. *)
Theorem marker_written_last (e : Env) (w : World) :
  (forall (out : string) (resp : GithubResponse) (tag : string),
      fst (main_check e w) = Ok (out, resp, tag) ->
      download_fails e resp \/ extract_fails e resp w
      \/ relocate_fails e resp w ->
      exit_status (fst (main e w)) <> 0 /\
      marker (snd (main e w)) = marker w) /\
  (marker (snd (main e w)) <> marker w ->
   fst (main e w) = Ok tt /\
   exists (resp : GithubResponse) (data : string),
     release_info e = Some resp /\
     yaml_Marshal e (mkVersionFile (sanitizeVersion (TagName resp)))
       = Some data /\
     marker (snd (main e w)) = MarkerData data /\
     ~ download_fails e resp /\ ~ extract_fails e resp w /\
     ~ relocate_fails e resp w).
Proof.
  destruct (main_check_spec e w) as (Hm & _ & Hx & _).
  split.
  - intros out resp tag Hcheck Hfail.
    rewrite main_eq.
    destruct (main_check e w) as [r w1]. cbn [fst snd] in *. subst r.
    rewrite <- Hm. apply main_update_failure.
    unfold extract_fails, relocate_fails in *. rewrite Hx. exact Hfail.
  - rewrite main_eq.
    pose proof (main_check_ok e w) as Hok.
    destruct (main_check e w) as [[[[out resp] tag]| |] w1];
      cbn [fst snd] in *; try congruence.
    destruct (Hok out resp tag eq_refl) as (_ & Hrel & -> & _).
    intros Hchanged. rewrite <- Hm in Hchanged.
    destruct (main_update_marker e out resp _ w1 Hchanged)
      as (Hret & (data & Hdata & Hmark) & Hnd & Hne & Hnr).
    split; [exact Hret|]. exists resp, data.
    unfold extract_fails, relocate_fails in *. rewrite Hx in *.
    repeat split; assumption.
Qed.

Lemma marker_written_last_witness :
  let e := sample_env "v1.0.0" ["swagger-ui"] true in
  let w := sample_world true MarkerAbsent in
  exit_status (fst (main e w)) <> 0 /\ marker (snd (main e w)) = marker w.
Proof.
  intros e w.
  apply (proj1 (marker_written_last e w) "/srv/www"
           (mkGithubResponse SwaggerReleasesURL "v1.0.0" sample_tarball)
           "1.0.0").
  - vm_compute. reflexivity.
  - right. left. exists "archive bytes". repeat split; reflexivity.
Defined.

(** C4.  The tag of the release is not validated: [abc], what is left of the
    tag [vabc], is no valid version, and yet "abc" > "0" makes it a newer
    version than the baseline; the run downloads the archive, extracts it,
    copies it and records the version [abc]. *)
Theorem invalid_remote_version_is_downloaded :
  isVersionValueValid (sanitizeVersion "vabc") = false /\
  let run := main (sample_env "vabc" ["swagger-ui"] false)
                  (sample_world true MarkerAbsent) in
  fst run = Ok tt /\
  requests (snd run) = [SwaggerReleasesURL; sample_tarball] /\
  copies (snd run) = [(dist_of "swagger-ui", true)] /\
  marker (snd run) = MarkerData ("version: abc" ++ newline).
Proof. repeat split; vm_compute; reflexivity. Qed.

(** C5, as amended.  A run that returns has removed the downloaded archive
    and, when [os.RemoveAll] did not fail, the extraction directory.  A run
    in which the extraction or the relocation fails ends at once with a
    failure status: the archive and what was extracted stay where they
    are. *)
Theorem cleanup_on_success_only (e : Env) (w : World) :
  (fst (main e w) = Ok tt ->
   temp_tar (snd (main e w)) = None /\
   (removeall_fails e = false -> extracted (snd (main e w)) = None)) /\
  (forall (out : string) (resp : GithubResponse) (tag : string),
      fst (main_check e w) = Ok (out, resp, tag) ->
      extract_fails e resp w \/ relocate_fails e resp w ->
      exit_status (fst (main e w)) <> 0 /\
      exists body : string,
        http_get e (TarballURL resp) = Some body /\
        temp_tar (snd (main e w)) = Some body /\
        extracted (snd (main e w)) = fst (untar e body (extracted w))).
Proof.
  destruct (main_check_spec e w) as (Hm & _ & Hx & _).
  rewrite main_eq. split.
  - destruct (main_check e w) as [[[[out resp] tag]| |] w1];
      cbn [fst snd]; try discriminate.
    apply main_update_cleans.
  - intros out resp tag Hcheck Hfail.
    destruct (main_check e w) as [r w1]. cbn [fst snd] in *. subst r.
    unfold extract_fails, relocate_fails in Hfail. rewrite <- Hx in *.
    split.
    + apply main_update_failure. right. exact Hfail.
    + apply main_update_leaves. exact Hfail.
Qed.

Lemma cleanup_on_success_only_witness :
  let e := sample_env "v1.0.0" ["swagger-ui"] false in
  let w := sample_world true MarkerAbsent in
  temp_tar (snd (main e w)) = None /\
  (removeall_fails e = false -> extracted (snd (main e w)) = None).
Proof.
  intros e w. apply (proj1 (cleanup_on_success_only e w)).
  vm_compute. reflexivity.
Defined.

(** C5, the claim as stated fails: when the extraction fails the run ends
    with status 1, and the archive [temp.tar.gz] and the extraction directory
    are still there. *)
Lemma failed_run_leaves_temporary_files :
  let run := main (sample_env "v1.0.0" ["swagger-ui"] true)
                  (sample_world true MarkerAbsent) in
  fst run = Exit 1 /\
  requests (snd run) = [SwaggerReleasesURL; sample_tarball] /\
  temp_tar (snd run) = Some "archive bytes" /\
  extracted (snd run) = Some ["swagger-ui"].
Proof. repeat split; vm_compute; reflexivity. Qed.

(** C6, as amended.  The relocation copies the [dist] directory of the first
    entry of the extraction directory, whatever other entries there are.  It
    fails, with status 1 and the version file untouched, when that copy
    fails; when the copy, the removal of the archive and the write of the
    version file succeed, the run returns and the version is recorded. *)
Theorem relocate_takes_first_entry (e : Env) (w : World) (out : string)
    (resp : GithubResponse) (tag body name : string) (others : list string) :
  fst (main_check e w) = Ok (out, resp, tag) ->
  http_get e (TarballURL resp) = Some body ->
  write_temp_fails e = false ->
  untar e body (extracted w) = (Some (name :: others), false) ->
  copies (snd (main e w)) =
    (copies w ++ [(dist_of name, negb (copy_fails e (dist_of name)))])%list /\
  (copy_fails e (dist_of name) = true ->
   fst (main e w) = Exit 1 /\ marker (snd (main e w)) = marker w) /\
  (copy_fails e (dist_of name) = false ->
   remove_fails e = false -> write_marker_fails e = false ->
   forall data : string,
     yaml_Marshal e (mkVersionFile tag) = Some data ->
     fst (main e w) = Ok tt /\ marker (snd (main e w)) = MarkerData data).
Proof.
  intros Hcheck Hget Hwrite Huntar.
  destruct (main_check_spec e w) as (Hm & _ & Hx & Hc & _).
  destruct (main_check_ok e w out resp tag Hcheck) as (Hdir & _).
  rewrite main_eq.
  destruct (main_check e w) as [r w1]. cbn [fst snd] in *. subst r.
  rewrite <- Hx in Huntar.
  destruct (main_update_first_entry e out resp tag w1 body name others
              Hget Hwrite Huntar) as (Hcopies & Hfail & Hsucc).
  rewrite <- Hm, <- Hc. repeat split.
  - exact Hcopies.
  - apply Hfail; assumption.
  - apply Hfail; assumption.
  - eapply Hsucc; eassumption.
  - eapply Hsucc; eassumption.
Qed.

Lemma relocate_takes_first_entry_witness :
  let e := sample_env "v1.0.0" ["a"; "b"] false in
  let w := sample_world true MarkerAbsent in
  copies (snd (main e w)) =
    (copies w ++ [(dist_of "a", negb (copy_fails e (dist_of "a")))])%list.
Proof.
  intros e w.
  apply (relocate_takes_first_entry e w "/srv/www"
           (mkGithubResponse SwaggerReleasesURL "v1.0.0" sample_tarball)
           "1.0.0" "archive bytes" "a" ["b"]).
  - vm_compute. reflexivity.
  - reflexivity.
  - reflexivity.
  - reflexivity.
Defined.

(** C6, the claim as stated fails: with two entries at the top of the
    extraction directory the run copies from the first one, returns, and
    records the version. *)
Lemma two_top_level_entries_accepted :
  let run := main (sample_env "v1.0.0" ["a"; "b"] false)
                  (sample_world true MarkerAbsent) in
  fst run = Ok tt /\
  copies (snd run) = [(dist_of "a", true)] /\
  marker (snd run) = MarkerData ("version: 1.0.0" ++ newline).
Proof. repeat split; vm_compute; reflexivity. Qed.

(** C7.  In an output directory whose version file is absent, unreadable,
    no YAML, without a [version] or with an invalid one, the version found
    is the baseline 0.0.0, no such failure ends the run, and the run is the
    one of the same directory without a version file: the same result, the
    same requests, the same files; the version file is rewritten alike in
    both or left alone in both. *)
Theorem unusable_marker_is_baseline (e : Env) (w : World) :
  out_dir w = true -> marker_unusable e (marker w) ->
  fst (main_marker e w) = Ok baselineVersionParts /\
  let with_file := main e w in
  let without := main e (set_marker MarkerAbsent w) in
  fst with_file = fst without /\
  same_but_marker (snd with_file) (snd without) /\
  (marker (snd with_file) = marker (snd without) \/
   marker (snd with_file) = marker w /\
   marker (snd without) = MarkerAbsent).
Proof.
  intros Hdir Hunusable.
  assert (Hbase : fst (main_marker e w) = Ok baselineVersionParts)
    by (apply main_marker_unusable; assumption).
  split; [exact Hbase|]. cbv zeta.
  set (w0 := set_marker MarkerAbsent w).
  assert (Hbase0 : fst (main_marker e w0) = Ok baselineVersionParts).
  { apply main_marker_unusable; [destruct w; exact Hdir|].
    destruct w; exact I. }
  destruct (main_check_spec e w)
    as (Hm & Ht & Hx & Hc & Hd & Hres & Hreq & _).
  destruct (main_check_spec e w0)
    as (Hm0 & Ht0 & Hx0 & Hc0 & Hd0 & Hres0 & Hreq0 & _).
  rewrite Hbase in Hres, Hreq. rewrite Hbase0 in Hres0, Hreq0.
  rewrite <- Hres0 in Hres. clear Hres0.
  assert (Hsim : same_but_marker (snd (main_check e w)) (snd (main_check e w0))).
  { unfold same_but_marker.
    rewrite Ht, Ht0, Hx, Hx0, Hc, Hc0, Hreq, Hreq0.
    rewrite (Hd Hdir), Hd0 by (destruct w; exact Hdir).
    destruct w; repeat split; reflexivity. }
  assert (Hmark : marker (snd (main_check e w)) = marker w /\
                  marker (snd (main_check e w0)) = MarkerAbsent)
    by (rewrite Hm, Hm0; destruct w; split; reflexivity).
  rewrite !main_eq.
  destruct (main_check e w) as [r w1], (main_check e w0) as [r0 w1'].
  cbn [fst snd] in *. subst r0.
  destruct r as [[[out resp] tag]| |]; cbn [fst snd].
  - destruct (main_update_insensitive e out resp tag w1 w1' Hsim)
      as (Hr & Hs & Hk).
    split; [exact Hr|]. split; [exact Hs|].
    destruct Hk as [Hk|[Hk1 Hk2]]; [left; exact Hk|right].
    destruct Hmark as [Hmark1 Hmark2]. split; congruence.
  - split; [reflexivity|]. split; [exact Hsim|]. right. exact Hmark.
  - split; [reflexivity|]. split; [exact Hsim|]. right. exact Hmark.
Qed.

Lemma unusable_marker_is_baseline_witness :
  let e := sample_env "v1.2.3" ["swagger-ui"] false in
  let w := sample_world true (MarkerData "not a version file") in
  fst (main_marker e w) = Ok baselineVersionParts /\
  fst (main e w) = fst (main e (set_marker MarkerAbsent w)).
Proof.
  intros e w.
  destruct (unusable_marker_is_baseline e w) as (Hbase & Hsame & _).
  - reflexivity.
  - vm_compute. exact I.
  - split; [exact Hbase|exact Hsame].
Defined.

(** C8, as amended.  When the check finds no newer version, the run ends
    with [os.Exit(0)] after the one request for the release information: no
    archive is requested, and the version file, the archive, the extraction
    directory and the content of the output directory are as they were.  The
    output directory itself is there afterwards: it has been created when it
    was missing, which happens before the versions are compared. *)
Theorem up_to_date_run (e : Env) (w : World) (arg : string)
    (prev : list string) (resp : GithubResponse) :
  docopt_out e = Some arg ->
  fst (main_marker e w) = Ok prev ->
  release_info e = Some resp ->
  existsNewerVersion prev (splitSemver (sanitizeVersion (TagName resp)))
    = Ok false ->
  fst (main e w) = Exit 0 /\
  requests (snd (main e w)) = (requests w ++ [SwaggerReleasesURL])%list /\
  marker (snd (main e w)) = marker w /\
  temp_tar (snd (main e w)) = temp_tar w /\
  extracted (snd (main e w)) = extracted w /\
  copies (snd (main e w)) = copies w /\
  out_dir (snd (main e w)) = true.
Proof.
  intros Harg Hprev Hrel Hnewer.
  destruct (main_check_spec e w)
    as (Hm & Ht & Hx & Hc & _ & Hres & Hreq & Hdir).
  rewrite Harg, Hprev in Hres, Hreq. rewrite Hrel in Hres.
  cbv zeta in Hres. rewrite Hnewer in Hres.
  specialize (Hdir arg prev Harg Hprev).
  rewrite main_eq.
  destruct (main_check e w) as [r w1]. cbn [fst snd] in *. subst r.
  cbn [fst snd]. repeat split; assumption.
Qed.

Lemma up_to_date_run_witness :
  let e := sample_env "v1.9.9" ["swagger-ui"] false in
  let w := sample_world true (MarkerData ("version: 1.9.9" ++ newline)) in
  fst (main e w) = Exit 0 /\
  requests (snd (main e w)) = (requests w ++ [SwaggerReleasesURL])%list.
Proof.
  intros e w.
  destruct (up_to_date_run e w "www" ["1"; "9"; "9"]
              (mkGithubResponse SwaggerReleasesURL "v1.9.9" sample_tarball))
    as (Hexit & Hreq & _).
  - reflexivity.
  - vm_compute. reflexivity.
  - reflexivity.
  - vm_compute. reflexivity.
  - split; [exact Hexit|exact Hreq].
Defined.

(** C8, the claim as stated fails: with no newer version on offer and no
    output directory yet, the run ends with [os.Exit(0)] and has created the
    output directory. *)
Lemma missing_directory_created_before_check :
  let w := sample_world false MarkerAbsent in
  let run := main (sample_env "v0.0.0" ["swagger-ui"] false) w in
  existsNewerVersion baselineVersionParts
    (splitSemver (sanitizeVersion "v0.0.0")) = Ok false /\
  fst run = Exit 0 /\
  out_dir w = false /\ out_dir (snd run) = true.
Proof. repeat split; vm_compute; reflexivity. Qed.

(** * Further properties of the code *)

(** ** More on the order of versions *)

Lemma ascii_compare_N (c d : ascii) :
  Ascii.compare c d = (N_of_ascii c ?= N_of_ascii d)%N.
Proof. reflexivity. Qed.

Lemma ascii_compare_Eq (c d : ascii) : Ascii.compare c d = Eq -> c = d.
Proof.
  rewrite ascii_compare_N. intros H. apply N.compare_eq in H.
  rewrite <- (ascii_N_embedding c), <- (ascii_N_embedding d), H. reflexivity.
Qed.

Lemma string_compare_Lt_trans (a b c : string) :
  String.compare a b = Lt -> String.compare b c = Lt ->
  String.compare a c = Lt.
Proof.
  revert b c. induction a as [|x a IH]; intros [|y b] [|z c]; simpl;
    try discriminate; try reflexivity.
  rewrite !ascii_compare_N.
  destruct (N.compare_spec (N_of_ascii x) (N_of_ascii y)) as [Hxy|Hxy|Hxy];
    destruct (N.compare_spec (N_of_ascii y) (N_of_ascii z)) as [Hyz|Hyz|Hyz];
    try discriminate; intros Hab Hbc.
  - rewrite Hxy, Hyz, N.compare_refl. eapply IH; eassumption.
  - rewrite Hxy. apply N.compare_lt_iff in Hyz. rewrite Hyz. reflexivity.
  - rewrite <- Hyz. apply N.compare_lt_iff in Hxy. rewrite Hxy. reflexivity.
  - assert (H : (N_of_ascii x < N_of_ascii z)%N) by lia.
    apply N.compare_lt_iff in H. rewrite H. reflexivity.
Qed.

Lemma string_compare_refl (a : string) : String.compare a a = Eq.
Proof.
  induction a as [|x a IH]; simpl; [reflexivity|].
  rewrite ascii_compare_N, N.compare_refl. exact IH.
Qed.

Lemma gt_lt_swap (a b : string) : GoStrings.gt a b = GoStrings.lt b a.
Proof.
  unfold GoStrings.gt, GoStrings.lt. rewrite (String.compare_antisym b a).
  destruct (String.compare a b); reflexivity.
Qed.

(** [diffSemvers] is the lexicographic combination of the three string
    comparisons. *)
Lemma diffSemvers_compare (x0 x1 x2 y0 y1 y2 : string) :
  diffSemvers (x0, x1, x2) (y0, y1, y2) =
  match String.compare x0 y0 with
  | Eq => match String.compare x1 y1 with
          | Eq => sign_of (String.compare x2 y2)
          | c => sign_of c
          end
  | c => sign_of c
  end.
Proof.
  unfold diffSemvers, GoStrings.gt, GoStrings.lt.
  destruct (String.compare x0 y0), (String.compare x1 y1),
    (String.compare x2 y2); reflexivity.
Qed.

(** X1.  The positional comparison is antisymmetric: swapping the two
    versions negates the result. *)
Theorem diffSemvers_antisym (x y : semver3) :
  diffSemvers x y = - diffSemvers y x.
Proof.
  destruct x as [[x0 x1] x2], y as [[y0 y1] y2].
  rewrite !diffSemvers_compare.
  rewrite (String.compare_antisym y0 x0), (String.compare_antisym y1 x1),
    (String.compare_antisym y2 x2).
  destruct (String.compare x0 y0), (String.compare x1 y1),
    (String.compare x2 y2); reflexivity.
Qed.

(** X2.  The positional comparison answers 0 for equal versions only. *)
Theorem diffSemvers_zero_iff (x y : semver3) :
  diffSemvers x y = 0 <-> x = y.
Proof.
  destruct x as [[x0 x1] x2], y as [[y0 y1] y2].
  rewrite diffSemvers_compare. split.
  - destruct (String.compare x0 y0) eqn:H0; try discriminate.
    destruct (String.compare x1 y1) eqn:H1; try discriminate.
    destruct (String.compare x2 y2) eqn:H2; try discriminate.
    intros _. apply String.compare_eq_iff in H0, H1, H2. congruence.
  - intros [= -> -> ->]. rewrite !string_compare_refl. reflexivity.
Qed.

Lemma diffSemvers_zero_iff_witness :
  diffSemvers ("1", "2", "3") ("1", "2", "3") = 0.
Proof. apply (proj2 (diffSemvers_zero_iff _ _)). reflexivity. Defined.

Ltac order_step x y z :=
  let Hxy := fresh "Hxy" in
  let Hyz := fresh "Hyz" in
  destruct (String.compare x y) eqn:Hxy;
  destruct (String.compare y z) eqn:Hyz;
  try discriminate;
  try (apply String.compare_eq_iff in Hxy; subst);
  try (apply String.compare_eq_iff in Hyz; subst);
  try rewrite string_compare_refl;
  try match goal with
      | H1 : String.compare ?a ?b = Lt, H2 : String.compare ?b ?c = Lt |- _ =>
          rewrite (string_compare_Lt_trans a b c H1 H2)
      | H1 : String.compare ?a ?b = _ |- _ => rewrite H1
      end.

(** X3.  The positional comparison is transitive: a version below a version
    below a third one is below the third. *)
Theorem diffSemvers_trans (x y z : semver3) :
  diffSemvers x y = -1 -> diffSemvers y z = -1 -> diffSemvers x z = -1.
Proof.
  destruct x as [[x0 x1] x2], y as [[y0 y1] y2], z as [[z0 z1] z2].
  rewrite !diffSemvers_compare.
  order_step x0 y0 z0; try (intros; reflexivity).
  order_step x1 y1 z1; try (intros; reflexivity).
  order_step x2 y2 z2; intros; reflexivity.
Qed.

Lemma diffSemvers_trans_witness :
  diffSemvers ("1", "2", "3") ("1", "4", "0") = -1.
Proof.
  apply (diffSemvers_trans _ ("1", "3", "9") _); reflexivity.
Defined.

Lemma gt_of_compare (a b : string) :
  GoStrings.gt a b = match String.compare b a with Lt => true | _ => false end.
Proof. rewrite gt_lt_swap. reflexivity. Qed.

(** X4.  The newer-version check misses no newer version: on three-part
    versions, whenever the positional comparison puts the baseline below the
    release the check answers [true], and for equal versions it answers
    [false]. *)
Theorem existsNewerVersion_finds_newer (x y : semver3) :
  (diffSemvers x y = -1 ->
   existsNewerVersion (parts_of x) (parts_of y) = Ok true) /\
  (diffSemvers x y = 0 ->
   existsNewerVersion (parts_of x) (parts_of y) = Ok false).
Proof.
  destruct x as [[x0 x1] x2], y as [[y0 y1] y2].
  rewrite diffSemvers_compare. cbn [parts_of].
  rewrite !existsNewerVersion_cons, existsNewerVersion_nil, !gt_of_compare.
  destruct (String.compare x0 y0), (String.compare x1 y1),
    (String.compare x2 y2); split; intros H; try reflexivity;
    discriminate H.
Qed.

Lemma existsNewerVersion_finds_newer_witness :
  existsNewerVersion ["1"; "2"; "3"] ["1"; "3"; "0"] = Ok true.
Proof.
  apply (proj1 (existsNewerVersion_finds_newer ("1", "2", "3")
                  ("1", "3", "0"))).
  reflexivity.
Defined.

(** X5.  When the release has no more components than the baseline the
    check does not panic, and it answers [true] exactly when some component
    of the release is greater, as a string, than the component of the
    baseline at the same place. *)
Theorem existsNewerVersion_within_baseline (previous current : list string) :
  (List.length current <= List.length previous)%nat ->
  exists b : bool,
    existsNewerVersion previous current = Ok b /\
    (b = true <->
     exists (i : nat) (p c : string),
       previous !! i = Some p /\ current !! i = Some c /\
       GoStrings.gt c p = true).
Proof.
  revert previous. induction current as [|c current IH]; intros previous Hlen.
  - exists false. rewrite existsNewerVersion_nil. split; [reflexivity|].
    split; [discriminate|]. intros (i & p & c & _ & Hc & _). discriminate Hc.
  - destruct previous as [|p previous]; [simpl in Hlen; lia|].
    rewrite existsNewerVersion_cons.
    destruct (GoStrings.gt c p) eqn:Hgt.
    + exists true. split; [reflexivity|]. split; [|reflexivity].
      intros _. exists 0%nat, p, c. repeat split. exact Hgt.
    + destruct (IH previous) as (b & Hb & Hiff); [simpl in Hlen; lia|].
      exists b. split; [exact Hb|]. rewrite Hiff. split.
      * intros (i & p' & c' & Hp & Hc & Hg). exists (S i), p', c'. auto.
      * intros ([|i] & p' & c' & Hp & Hc & Hg); simpl in Hp, Hc.
        -- congruence.
        -- exists i, p', c'. auto.
Qed.

Lemma existsNewerVersion_within_baseline_witness :
  exists b : bool,
    existsNewerVersion ["1"; "2"; "3"] ["1"; "2"] = Ok b /\
    (b = true <->
     exists (i : nat) (p c : string),
       ["1"; "2"; "3"] !! i = Some p /\ ["1"; "2"] !! i = Some c /\
       GoStrings.gt c p = true).
Proof.
  apply (existsNewerVersion_within_baseline ["1"; "2"; "3"] ["1"; "2"]).
  simpl. lia.
Defined.

Lemma sanitizeVersion_of_valid (version : string) :
  isVersionValueValid version = true -> sanitizeVersion version = version.
Proof.
  rewrite sanitizeVersion_spec.
  destruct version as [|c rest]; [reflexivity|].
  destruct (ascii_dec c "v") as [->|Hc];
    [|destruct c as [[] [] [] [] [] [] [] []]; try reflexivity; congruence].
  intros Hvalid. exfalso.
  apply isVersionValueValid_parts in Hvalid.
  cbn [GoStrings.Split] in Hvalid.
  change (Ascii.eqb "v" ".") with false in Hvalid.
  destruct (GoStrings.Split rest ".") as [|piece pieces];
    inversion Hvalid as [|? ? [n [Hn _]] _]; subst;
    rewrite Atoi_String in Hn; discriminate Hn.
Qed.

(** X6.  A valid version has no leading [v]: [sanitizeVersion] leaves it as
    it is, so that the version saved in the version file is read back
    unchanged. *)
Theorem sanitizeVersion_valid (version : string) :
  isVersionValueValid version = true -> sanitizeVersion version = version.
Proof. exact (sanitizeVersion_of_valid version). Qed.

Lemma sanitizeVersion_valid_witness : sanitizeVersion "1.2.3" = "1.2.3".
Proof. apply sanitizeVersion_valid. reflexivity. Defined.

(** ** String order and numeric order *)

Lemma digit_value_range (c : ascii) :
  GoStrings.is_digit c = true -> 0 <= GoStrings.digit_value c <= 9.
Proof.
  unfold GoStrings.is_digit, GoStrings.digit_value. intros H.
  apply andb_true_iff in H as [H1 H2].
  apply N.leb_le in H1, H2. lia.
Qed.

Lemma digits_shift (s : string) (acc acc' n : Z) :
  GoStrings.digits acc s = Some n ->
  GoStrings.digits acc' s =
  Some (n + (acc' - acc) * 10 ^ Z.of_nat (String.length s)).
Proof.
  revert acc acc' n. induction s as [|c s IH]; intros acc acc' n;
    cbn [GoStrings.digits String.length].
  - intros [= <-]. f_equal. cbn. lia.
  - destruct (GoStrings.is_digit c); [|discriminate].
    intros Hn. rewrite (IH _ (acc' * 10 + GoStrings.digit_value c) _ Hn).
    f_equal. rewrite Nat2Z.inj_succ, Z.pow_succ_r by lia. ring.
Qed.

Lemma digits_range (s : string) (n : Z) :
  GoStrings.digits 0 s = Some n ->
  0 <= n < 10 ^ Z.of_nat (String.length s).
Proof.
  revert n. induction s as [|c s IH]; intros n;
    cbn [GoStrings.digits String.length].
  - intros [= <-]. cbn. lia.
  - destruct (GoStrings.is_digit c) eqn:Hc; [|discriminate].
    pose proof (digit_value_range c Hc) as Hv.
    intros Hn. pose proof (digits_shift _ _ 0 _ Hn) as H0.
    apply IH in H0.
    rewrite Nat2Z.inj_succ, Z.pow_succ_r by lia. nia.
Qed.

Lemma digits_acc (s : string) (acc n : Z) :
  GoStrings.digits acc s = Some n ->
  exists m : Z,
    GoStrings.digits 0 s = Some m /\
    n = acc * 10 ^ Z.of_nat (String.length s) + m /\
    0 <= m < 10 ^ Z.of_nat (String.length s).
Proof.
  intros Hn. pose proof (digits_shift _ _ 0 _ Hn) as H0.
  eexists. split; [exact H0|]. split; [ring|].
  apply digits_range, H0.
Qed.

(** X7.  On numbers written with the same number of digits the string
    comparison of the check is the comparison of the numbers: a component
    is greater as a string exactly when it is the greater number. *)
Theorem gt_same_length_numeric (a b : string) (na nb : Z) :
  String.length a = String.length b ->
  GoStrings.digits 0 a = Some na -> GoStrings.digits 0 b = Some nb ->
  (GoStrings.gt a b = true <-> nb < na).
Proof.
  unfold GoStrings.gt.
  revert b na nb. induction a as [|c a IH]; intros [|d b] na nb Hlen;
    try discriminate Hlen.
  - cbn. intros [= <-] [= <-]. split; [discriminate|lia].
  - injection Hlen as Hlen. cbn [GoStrings.digits String.compare].
    destruct (GoStrings.is_digit c) eqn:Hc; [|discriminate].
    destruct (GoStrings.is_digit d) eqn:Hd; [|discriminate].
    intros Ha Hb.
    destruct (digits_acc _ _ _ Ha) as (ma & Hma & -> & Hra).
    destruct (digits_acc _ _ _ Hb) as (mb & Hmb & -> & Hrb).
    rewrite <- Hlen in *.
    pose proof (digit_value_range c Hc) as Hvc.
    pose proof (digit_value_range d Hd) as Hvd.
    assert (Hval : forall x : ascii,
               GoStrings.digit_value x = Z.of_N (N_of_ascii x) - 48)
      by reflexivity.
    rewrite ascii_compare_N.
    destruct (N.compare_spec (N_of_ascii c) (N_of_ascii d)) as [Hcd|Hcd|Hcd].
    + assert (GoStrings.digit_value c = GoStrings.digit_value d)
        by (rewrite !Hval, Hcd; reflexivity).
      rewrite (IH b ma mb Hlen Hma Hmb). nia.
    + assert (GoStrings.digit_value c < GoStrings.digit_value d)
        by (rewrite !Hval; lia).
      split; [discriminate|]. nia.
    + assert (GoStrings.digit_value d < GoStrings.digit_value c)
        by (rewrite !Hval; lia).
      split; [|reflexivity]. nia.
Qed.

Lemma gt_same_length_numeric_witness :
  GoStrings.gt "10" "09" = true <-> 9 < 10.
Proof. apply gt_same_length_numeric; reflexivity. Defined.

(** ** More on the run *)

Lemma main_update_requests (e : Env) (out : string) (resp : GithubResponse)
    (tag : string) (w : World) :
  requests (snd (main_update e out resp tag w)) =
  (requests w ++ [TarballURL resp])%list.
Proof.
  destruct (main_update e out resp tag w) as [r w'] eqn:Hrun.
  destruct w as [dir m tmp ext cps reqs con]. cbn [fst snd requests].
  run_in Hrun; simplify_eq; reflexivity.
Qed.

(** What an update that returned has done. *)
Lemma main_update_success (e : Env) (out : string) (resp : GithubResponse)
    (tag : string) (w : World) :
  fst (main_update e out resp tag w) = Ok tt ->
  out_dir (snd (main_update e out resp tag w)) = out_dir w /\
  exists (data body name : string) (staging : option (list string)),
    yaml_Marshal e (mkVersionFile tag) = Some data /\
    marker (snd (main_update e out resp tag w)) = MarkerData data /\
    http_get e (TarballURL resp) = Some body /\
    untar e body (extracted w) = (staging, false) /\
    default [] staging !! 0%nat = Some name /\
    copy_fails e (dist_of name) = false /\
    copies (snd (main_update e out resp tag w)) =
      (copies w ++ [(dist_of name, true)])%list /\
    temp_tar (snd (main_update e out resp tag w)) = None /\
    extracted (snd (main_update e out resp tag w)) =
      (if removeall_fails e then staging else None).
Proof.
  unfold dist_of.
  destruct (main_update e out resp tag w) as [r w'] eqn:Hrun.
  destruct w as [dir m tmp ext cps reqs con].
  cbn [fst snd out_dir extracted copies].
  run_in Hrun; simplify_eq; cbn; intros Hr; try discriminate Hr.
  all: split; [reflexivity|]; do 4 eexists; repeat split; eauto.
Qed.

Lemma main_marker_usable (e : Env) (w : World) (data : string)
    (vFile : VersionFile) :
  out_dir w = true -> marker w = MarkerData data ->
  yaml_Unmarshal e data = Some vFile ->
  Version vFile <> "" ->
  isVersionValueValid (sanitizeVersion (Version vFile)) = true ->
  fst (main_marker e w) = Ok (splitSemver (sanitizeVersion (Version vFile))).
Proof.
  destruct (main_marker e w) as [r w'] eqn:Hrun.
  destruct w as [dir m tmp ext cps reqs con]. cbn.
  intros -> -> Hyaml Hkey Hvalid.
  start_in Hrun.
  unfold isVersionFileValid, doesVersionFileContainVersionKey in Hrun.
  rewrite Hyaml in Hrun.
  assert (Hlen : (Z.of_nat (String.length (Version vFile)) >? 0) = true)
    by (destruct (Version vFile); [congruence|reflexivity]).
  rewrite Hlen, Hvalid in Hrun. cbn in Hrun.
  simplify_eq. reflexivity.
Qed.

Lemma main_marker_mkdir_fails (e : Env) (w : World) :
  out_dir w = false -> mkdirall_fails e = true ->
  fst (main_marker e w) = Exit 1 /\ out_dir (snd (main_marker e w)) = false.
Proof.
  destruct (main_marker e w) as [r w'] eqn:Hrun.
  destruct w as [dir m tmp ext cps reqs con]. cbn.
  intros -> Hmk. start_in Hrun. rewrite Hmk in Hrun. cbn in Hrun.
  simplify_eq. split; reflexivity.
Qed.

(** What a run that returned has done. *)
Lemma main_success (e : Env) (w : World) :
  fst (main e w) = Ok tt ->
  exists (resp : GithubResponse) (data body name : string)
         (staging : option (list string)),
    docopt_out e <> None /\
    release_info e = Some resp /\
    requests (snd (main e w)) =
      (requests w ++ [SwaggerReleasesURL; TarballURL resp])%list /\
    http_get e (TarballURL resp) = Some body /\
    untar e body (extracted w) = (staging, false) /\
    default [] staging !! 0%nat = Some name /\
    copy_fails e (dist_of name) = false /\
    copies (snd (main e w)) = (copies w ++ [(dist_of name, true)])%list /\
    temp_tar (snd (main e w)) = None /\
    extracted (snd (main e w)) =
      (if removeall_fails e then staging else None) /\
    yaml_Marshal e (mkVersionFile (sanitizeVersion (TagName resp)))
      = Some data /\
    marker (snd (main e w)) = MarkerData data /\
    out_dir (snd (main e w)) = true.
Proof.
  rewrite main_eq.
  destruct (main_check_spec e w) as (_ & _ & Hx & Hc & _ & Hres & _).
  pose proof (main_check_ok e w) as Hok.
  destruct (main_check e w) as [[[[out resp] tag]| |] w1];
    cbn [fst snd] in *; try discriminate.
  destruct (Hok out resp tag eq_refl) as (Hdir & Hrel & -> & Hreq & _).
  intros Hret.
  destruct (main_update_success e out resp _ w1 Hret)
    as (Hd & data & body & name & staging & Hdata & Hmark & Hget & Huntar
        & Hfirst & Hcopy & Hcopies & Htemp & Hext).
  exists resp, data, body, name, staging.
  rewrite main_update_requests, Hreq, <- app_assoc.
  rewrite Hx in Huntar. rewrite Hc in Hcopies.
  repeat split; try assumption; try congruence.
  intros Hnone. rewrite Hnone in Hres. discriminate Hres.
Qed.

(** X8.  What a run that returns has done: it has requested the release
    information and then the archive of that release, extracted it, copied
    the [dist] directory of the first entry of the extraction directory,
    removed the archive, and saved the version of the release, without its
    leading [v], in the version file.  The extraction directory is gone as
    well, unless [os.RemoveAll] failed: its error is dropped, and the run
    returns all the same with the directory left behind. *)
Theorem successful_run (e : Env) (w : World) :
  fst (main e w) = Ok tt ->
  exists (resp : GithubResponse) (data body name : string)
         (staging : option (list string)),
    docopt_out e <> None /\
    release_info e = Some resp /\
    requests (snd (main e w)) =
      (requests w ++ [SwaggerReleasesURL; TarballURL resp])%list /\
    http_get e (TarballURL resp) = Some body /\
    untar e body (extracted w) = (staging, false) /\
    default [] staging !! 0%nat = Some name /\
    copy_fails e (dist_of name) = false /\
    copies (snd (main e w)) = (copies w ++ [(dist_of name, true)])%list /\
    temp_tar (snd (main e w)) = None /\
    extracted (snd (main e w)) =
      (if removeall_fails e then staging else None) /\
    yaml_Marshal e (mkVersionFile (sanitizeVersion (TagName resp)))
      = Some data /\
    marker (snd (main e w)) = MarkerData data /\
    out_dir (snd (main e w)) = true.
Proof. exact (main_success e w). Qed.

Lemma successful_run_witness :
  let e := sample_env "v1.2.3" ["swagger-ui"] false in
  let w := sample_world false MarkerAbsent in
  exists (resp : GithubResponse) (data body name : string)
         (staging : option (list string)),
    docopt_out e <> None /\
    release_info e = Some resp /\
    requests (snd (main e w)) =
      (requests w ++ [SwaggerReleasesURL; TarballURL resp])%list /\
    http_get e (TarballURL resp) = Some body /\
    untar e body (extracted w) = (staging, false) /\
    default [] staging !! 0%nat = Some name /\
    copy_fails e (dist_of name) = false /\
    copies (snd (main e w)) = (copies w ++ [(dist_of name, true)])%list /\
    temp_tar (snd (main e w)) = None /\
    extracted (snd (main e w)) =
      (if removeall_fails e then staging else None) /\
    yaml_Marshal e (mkVersionFile (sanitizeVersion (TagName resp)))
      = Some data /\
    marker (snd (main e w)) = MarkerData data /\
    out_dir (snd (main e w)) = true.
Proof.
  intros e w. apply (successful_run e w). vm_compute. reflexivity.
Defined.

Lemma isVersionValueValid_not_empty (version : string) :
  isVersionValueValid version = true -> version <> "".
Proof. intros H ->. discriminate H. Qed.

(** X9.  Running again after a run that returned: when the version of the
    release is a valid version and the YAML library reads back what it
    wrote, the second run finds the release in the version file, ends with
    [os.Exit(0)] after the request for the release information, requests no
    archive and leaves every file as the first run left it. *)
Theorem second_run_is_up_to_date (e : Env) (w : World) :
  fst (main e w) = Ok tt ->
  (forall (resp : GithubResponse) (data : string),
      release_info e = Some resp ->
      yaml_Marshal e (mkVersionFile (sanitizeVersion (TagName resp)))
        = Some data ->
      isVersionValueValid (sanitizeVersion (TagName resp)) = true /\
      yaml_Unmarshal e data
        = Some (mkVersionFile (sanitizeVersion (TagName resp)))) ->
  let w1 := snd (main e w) in
  fst (main e w1) = Exit 0 /\
  requests (snd (main e w1)) = (requests w1 ++ [SwaggerReleasesURL])%list /\
  out_dir (snd (main e w1)) = out_dir w1 /\
  marker (snd (main e w1)) = marker w1 /\
  temp_tar (snd (main e w1)) = temp_tar w1 /\
  extracted (snd (main e w1)) = extracted w1 /\
  copies (snd (main e w1)) = copies w1.
Proof.
  intros Hret Hyaml w1.
  destruct (main_success e w Hret)
    as (resp & data & body & name & staging & Harg & Hrel & _ & _ & _ & _ & _
        & _ & _ & _ & Hdata & Hmark & Hdir).
  fold w1 in Hmark, Hdir.
  destruct (Hyaml resp data Hrel Hdata) as [Hvalid Hread].
  set (tag := sanitizeVersion (TagName resp)) in *.
  assert (Hprev : fst (main_marker e w1) = Ok (splitSemver tag)).
  { replace (splitSemver tag)
      with (splitSemver (sanitizeVersion (Version (mkVersionFile tag))))
      by (cbn [Version]; rewrite sanitizeVersion_of_valid; auto).
    apply (main_marker_usable e w1 data (mkVersionFile tag));
      try assumption.
    - apply isVersionValueValid_not_empty, Hvalid.
    - cbn [Version]. rewrite sanitizeVersion_of_valid; exact Hvalid. }
  destruct (main_check_spec e w1)
    as (Hm & Ht & Hx & Hc & Hd & Hres & Hreq & _).
  destruct (docopt_out e) as [arg|]; [|congruence].
  rewrite Hprev in Hres, Hreq. rewrite Hrel in Hres. cbv zeta in Hres.
  fold tag in Hres. rewrite existsNewerVersion_same in Hres.
  rewrite main_eq.
  destruct (main_check e w1) as [r w2]. cbn [fst snd] in *. subst r.
  cbn [fst snd]. repeat split; try assumption.
  rewrite Hdir. apply Hd, Hdir.
Qed.

Lemma second_run_is_up_to_date_witness :
  let e := sample_env "v1.2.3" ["swagger-ui"] false in
  let w1 := snd (main e (sample_world false MarkerAbsent)) in
  fst (main e w1) = Exit 0 /\
  requests (snd (main e w1)) = (requests w1 ++ [SwaggerReleasesURL])%list.
Proof.
  intros e w1.
  destruct (second_run_is_up_to_date e (sample_world false MarkerAbsent))
    as (Hexit & Hreq & _).
  - vm_compute. reflexivity.
  - intros resp data [= <-] [= <-]. split; vm_compute; reflexivity.
  - split; [exact Hexit|exact Hreq].
Defined.

(** X10.  When the release information cannot be fetched the run ends with
    status 1 after that one request: no archive is requested, and the
    version file, the archive, the extraction directory and the content of
    the output directory are as they were. *)
Theorem fetch_failure_is_fatal (e : Env) (w : World) (arg : string)
    (prev : list string) :
  docopt_out e = Some arg ->
  fst (main_marker e w) = Ok prev ->
  release_info e = None ->
  fst (main e w) = Exit 1 /\
  requests (snd (main e w)) = (requests w ++ [SwaggerReleasesURL])%list /\
  marker (snd (main e w)) = marker w /\
  temp_tar (snd (main e w)) = temp_tar w /\
  extracted (snd (main e w)) = extracted w /\
  copies (snd (main e w)) = copies w.
Proof.
  intros Harg Hprev Hrel.
  destruct (main_check_spec e w)
    as (Hm & Ht & Hx & Hc & _ & Hres & Hreq & _).
  rewrite Harg, Hprev in Hres, Hreq. rewrite Hrel in Hres.
  rewrite main_eq.
  destruct (main_check e w) as [r w1]. cbn [fst snd] in *. subst r.
  cbn [fst snd]. repeat split; assumption.
Qed.

Lemma fetch_failure_is_fatal_witness :
  let e := mkEnv (Some "www") (Some "/srv") false None (fun _ => None) false
                 (sample_untar [] false) (fun _ => false) false false false
                 sample_Unmarshal sample_Marshal in
  let w := sample_world true MarkerAbsent in
  fst (main e w) = Exit 1 /\
  requests (snd (main e w)) = (requests w ++ [SwaggerReleasesURL])%list.
Proof.
  intros e w.
  destruct (fetch_failure_is_fatal e w "www" baselineVersionParts)
    as (Hexit & Hreq & _); try reflexivity.
  split; [exact Hexit|exact Hreq].
Defined.

(** X11.  When the output directory is missing and cannot be created the
    run ends with status 1 before any request is sent, and nothing is
    written. *)
Theorem mkdir_failure_is_fatal (e : Env) (w : World) (arg : string) :
  docopt_out e = Some arg ->
  out_dir w = false -> mkdirall_fails e = true ->
  fst (main e w) = Exit 1 /\
  requests (snd (main e w)) = requests w /\
  out_dir (snd (main e w)) = false /\
  marker (snd (main e w)) = marker w /\
  temp_tar (snd (main e w)) = temp_tar w /\
  extracted (snd (main e w)) = extracted w /\
  copies (snd (main e w)) = copies w.
Proof.
  intros Harg Hdir Hmk.
  destruct (main_marker_mkdir_fails e w Hdir Hmk) as [Hexit _].
  destruct (main_check_spec e w)
    as (Hm & Ht & Hx & Hc & _ & Hres & Hreq & _).
  rewrite Harg, Hexit in Hres, Hreq.
  assert (Hout : out_dir (snd (main_check e w)) = false).
  { rewrite main_check_eq.
    destruct (parseArgs_frame e w) as (Hd0 & Hm0 & _ & _ & _ & _ & Hr0).
    destruct (parseArgs e w) as [r0 w0]. cbn [fst snd] in *. subst r0.
    rewrite Harg. cbv zeta.
    set (line := "specified output directory: (" ++ _ ++ ")").
    destruct (warn_frame line w0) as (Hd0' & _).
    assert (Hd1 : out_dir (snd (warn line w0)) = false) by congruence.
    destruct (main_marker_mkdir_fails e _ Hd1 Hmk) as [Hex1 Hout1].
    destruct (main_marker e (snd (warn line w0))) as [r1 w1].
    cbn [fst snd] in *. subst r1. exact Hout1. }
  rewrite main_eq.
  destruct (main_check e w) as [r w1]. cbn [fst snd] in *. subst r.
  cbn [fst snd]. repeat split; assumption.
Qed.

Lemma mkdir_failure_is_fatal_witness :
  let e := mkEnv (Some "www") (Some "/srv") true None (fun _ => None) false
                 (sample_untar [] false) (fun _ => false) false false false
                 sample_Unmarshal sample_Marshal in
  let w := sample_world false MarkerAbsent in
  fst (main e w) = Exit 1 /\ requests (snd (main e w)) = requests w.
Proof.
  intros e w.
  destruct (mkdir_failure_is_fatal e w "www") as (Hexit & Hreq & _);
    try reflexivity.
  split; [exact Hexit|exact Hreq].
Defined.

(** X12.  A run sends at most two requests and in this order: the one for
    the release information, then the one for the archive, at the
    [tarball_url] of the release received; no archive is requested without
    the release information. *)
Theorem requests_in_order (e : Env) (w : World) :
  requests (snd (main e w)) = requests w \/
  requests (snd (main e w)) = (requests w ++ [SwaggerReleasesURL])%list \/
  exists resp : GithubResponse,
    release_info e = Some resp /\
    requests (snd (main e w)) =
      (requests w ++ [SwaggerReleasesURL; TarballURL resp])%list.
Proof.
  rewrite main_eq.
  destruct (main_check_spec e w) as (_ & _ & _ & _ & _ & _ & Hreq & _).
  pose proof (main_check_ok e w) as Hok.
  destruct (main_check e w) as [[[[out resp] tag]| |] w1];
    cbn [fst snd] in *.
  - destruct (Hok out resp tag eq_refl) as (_ & Hrel & _ & Hreq1 & _).
    right. right. exists resp. split; [exact Hrel|].
    rewrite main_update_requests, Hreq1, <- app_assoc. reflexivity.
  - rewrite Hreq.
    destruct (docopt_out e), (fst (main_marker e w)); auto.
  - rewrite Hreq.
    destruct (docopt_out e), (fst (main_marker e w)); auto.
Qed.

(** ** More on the extractor *)

Section Extractor.

Import Archive.
Local Open Scope list_scope.

Lemma kept_refl (fs : FS) : kept fs fs.
Proof.
  split; [reflexivity|]. intros k.
  destruct (nodes fs !! k) as [[|mode c]|]; eauto.
Qed.

Lemma kept_trans (fs1 fs2 fs3 : FS) : kept fs1 fs2 -> kept fs2 fs3 -> kept fs1 fs3.
Proof.
  intros [Hc1 H1] [Hc2 H2]. split; [congruence|]. intros k.
  specialize (H1 k). specialize (H2 k).
  destruct (nodes fs1 !! k) as [[|mode c]|]; [| |exact I].
  - rewrite H1 in H2. exact H2.
  - destruct H1 as [c' H1]. rewrite H1 in H2. exact H2.
Qed.

Lemma mkdir_chain_preserves (segs base : list string)
    (m m' : gmap (list string) node) :
  mkdir_chain base segs m = Some m' ->
  forall k v, m !! k = Some v -> m' !! k = Some v.
Proof.
  revert base m. induction segs as [|s segs IH]; intros base m; cbn.
  - intros [= <-]. auto.
  - destruct (m !! (base ++ [s])) as [[|mode c]|] eqn:Hhere; try discriminate.
    + apply IH.
    + intros Hchain k v Hk. eapply IH; [exact Hchain|].
      rewrite lookup_insert_ne; [exact Hk|congruence].
Qed.

Lemma mkdir_chain_lookup (segs base : list string)
    (m m' : gmap (list string) node) :
  mkdir_chain base segs m = Some m' -> segs <> [] ->
  m' !! (base ++ segs) = Some Dir.
Proof.
  revert base m. induction segs as [|s segs IH]; intros base m; [congruence|].
  cbn. intros Hchain _.
  assert (Hnext : forall m1, m1 !! (base ++ [s]) = Some Dir ->
                  mkdir_chain (base ++ [s]) segs m1 = Some m' ->
                  m' !! (base ++ s :: segs) = Some Dir).
  { intros m1 Hm1 Hc. destruct segs as [|s2 segs].
    - cbn in Hc. injection Hc as <-. exact Hm1.
    - apply IH in Hc; [|discriminate].
      rewrite <- app_assoc in Hc. exact Hc. }
  destruct (m !! (base ++ [s])) as [[|mode c]|] eqn:Hhere; try discriminate.
  - eapply Hnext; eassumption.
  - eapply Hnext; [|exact Hchain]. apply lookup_insert_eq.
Qed.

Lemma os_MkdirAll_kept (fs : FS) (path : string) :
  kept fs (snd (os_MkdirAll fs path)).
Proof.
  unfold os_MkdirAll.
  destruct (mkdir_chain [] (resolve fs path) (nodes fs)) as [m|] eqn:Hm;
    [|apply kept_refl].
  split; [reflexivity|]. intros k. cbn.
  destruct (nodes fs !! k) as [[|mode c]|] eqn:Hk; [| |exact I].
  - eapply mkdir_chain_preserves; eassumption.
  - exists c. eapply mkdir_chain_preserves; eassumption.
Qed.

Lemma os_OpenFile_kept (fs fs1 : FS) (name : string) (perm : Z)
    (f : list string) :
  os_OpenFile fs name perm = inl (f, fs1) ->
  kept fs fs1 /\ exists mode content, nodes fs1 !! f = Some (File mode content).
Proof.
  unfold os_OpenFile.
  destruct (resolve fs name) as [|s place] eqn:Hplace; [discriminate|].
  destruct (lookup_node fs (removelast (s :: place))) as [[|? ?]|];
    try discriminate.
  destruct (nodes fs !! (s :: place)) as [[|mode c]|] eqn:Hnode;
    try discriminate; intros [= <- <-].
  - split; [apply kept_refl|eauto].
  - split; [|cbn; rewrite lookup_insert_eq; eauto].
    split; [reflexivity|]. intros k. cbn.
    destruct (nodes fs !! k) as [[|mode c]|] eqn:Hk; [| |exact I].
    + rewrite lookup_insert_ne; [exact Hk|congruence].
    + exists c. rewrite lookup_insert_ne; [exact Hk|congruence].
Qed.

Lemma io_Copy_kept (fs : FS) (f : list string) (body : string) (fails : bool) :
  kept fs (snd (io_Copy fs f body fails)).
Proof.
  unfold io_Copy. cbn [snd].
  destruct (nodes fs !! f) as [[|mode old]|] eqn:Hf; try apply kept_refl.
  split; [reflexivity|]. intros k. cbn.
  destruct (decide (k = f)) as [->|Hne].
  - rewrite Hf, lookup_insert_eq. eauto.
  - rewrite lookup_insert_ne by congruence.
    destruct (nodes fs !! k) as [[|mode' c]|]; eauto.
Qed.

Lemma Untar_loop_kept (dst : string) (items : list tar_item) (last : tar_end)
    (fs : FS) :
  kept fs (snd (Untar_loop dst items last fs)).
Proof.
  revert fs. induction items as [|item items IH]; intros fs.
  - cbn. destruct last; apply kept_refl.
  - destruct item as [|header body fails]; cbn [Untar_loop]; [apply IH|].
    destruct (Typeflag header).
    + destruct (os_OpenFile fs _ (Mode header)) as [[f fs1]|err] eqn:Hopen;
        [|apply kept_refl].
      apply os_OpenFile_kept in Hopen as [Hk1 _].
      pose proof (io_Copy_kept fs1 f body fails) as Hk2.
      destruct (io_Copy fs1 f body fails) as [[err|] fs2]; cbn [snd] in *.
      * eapply kept_trans; eassumption.
      * eapply kept_trans; [|apply IH]. eapply kept_trans; eassumption.
    + destruct (os_Stat fs _); [apply IH|].
      pose proof (os_MkdirAll_kept fs (GoPath.Join [dst; Name header])) as Hk.
      destruct (os_MkdirAll fs _) as [[err|] fs1]; cbn [snd] in *;
        [exact Hk|].
      eapply kept_trans; [exact Hk|apply IH].
    + apply IH.
Qed.

(** X13.  An extraction removes nothing: whatever the archive and however
    the extraction ends, every directory of the file system is still a
    directory afterwards, every file is still a file with the mode it had,
    and the working directory is the same. *)
Theorem Untar_keeps_nodes (dst : string) (r : reader) (fs : FS) :
  kept fs (snd (Untar dst r fs)).
Proof.
  destruct r as [|items last]; [apply kept_refl|apply Untar_loop_kept].
Qed.

(** X14.  Entries that are neither directories nor regular files, and nil
    headers, are passed over: an archive of such entries leaves the file
    system as it was, and the result is the one of the end of the
    stream. *)
Theorem Untar_passes_over (dst : string) (items : list tar_item)
    (last : tar_end) (fs : FS) :
  Forall passed_over items ->
  Untar dst (Gzip items last) fs =
  (match last with EOF => None | ReadError msg => Some msg end, fs).
Proof.
  cbn [Untar]. induction 1 as [|item items Hitem _ IH].
  - cbn. destruct last; reflexivity.
  - destruct item as [|header body fails]; cbn [Untar_loop]; [exact IH|].
    cbn in Hitem. destruct (Typeflag header); try contradiction. exact IH.
Qed.

Lemma Untar_passes_over_witness :
  Untar "extracted"
    (Gzip [NilHeader; Entry (mkHeader "link" (TypeOther "2") 511) "" false]
          EOF) sample_fs = (None, sample_fs).
Proof.
  apply (Untar_passes_over "extracted" _ EOF sample_fs).
  repeat constructor.
Defined.

(** X15.  The entries are extracted in the order of the stream, and the
    extraction stops at the first error: extracting [a ++ b] is extracting
    [a] and, when that went without error, extracting [b] from where [a]
    left the file system. *)
Theorem Untar_loop_app (dst : string) (a b : list tar_item) (last : tar_end)
    (fs : FS) :
  Untar_loop dst (a ++ b) last fs =
  match Untar_loop dst a EOF fs with
  | (None, fs1) => Untar_loop dst b last fs1
  | (Some err, fs1) => (Some err, fs1)
  end.
Proof.
  revert fs. induction a as [|item a IH]; intros fs; [reflexivity|].
  destruct item as [|header body fails]; cbn [app Untar_loop]; [apply IH|].
  destruct (Typeflag header).
  - destruct (os_OpenFile fs _ (Mode header)) as [[f fs1]|err];
      [|reflexivity].
    destruct (io_Copy fs1 f body fails) as [[err|] fs2]; [reflexivity|].
    apply IH.
  - destruct (os_Stat fs _); [apply IH|].
    destruct (os_MkdirAll fs _) as [[err|] fs1]; [reflexivity|]. apply IH.
  - apply IH.
Qed.




Lemma length_append (d t : string) :
  String.length (d ++ t)%string = (String.length d + String.length t)%nat.
Proof.
  induction d as [|c d IH]; [reflexivity|].
  change (String c d ++ t)%string with (String c (d ++ t)%string).
  cbn [String.length]. rewrite IH. reflexivity.
Qed.

Lemma length_substring (n m : nat) (s : string) :
  (n + m <= String.length s)%nat ->
  String.length (String.substring n m s) = m.
Proof.
  revert n m. induction s as [|c s IH]; intros n m; cbn [String.length].
  - intros H. assert (n = 0%nat) by lia. assert (m = 0%nat) by lia.
    subst. reflexivity.
  - destruct n as [|n]; cbn [String.substring].
    + destruct m as [|m]; [reflexivity|]. intros H. cbn [String.length].
      rewrite (IH 0%nat m) by lia. reflexivity.
    + intros H. apply IH. lia.
Qed.

Lemma substring_nothing (n : nat) (s : string) : String.substring n 0 s = "".
Proof.
  revert n. induction s as [|c s IH]; intros [|n]; cbn; try reflexivity.
  apply IH.
Qed.

Lemma overwrite_tail_length (old data : string) :
  String.length (String.substring (String.length data)
                   (String.length old - String.length data) old)
  = (Nat.max (String.length old) (String.length data)
     - String.length data)%nat.
Proof.
  destruct (Nat.le_gt_cases (String.length old) (String.length data)) as [H|H].
  - replace (String.length old - String.length data)%nat with 0%nat by lia.
    rewrite substring_nothing. cbn [String.length]. lia.
  - rewrite length_substring by lia. lia.
Qed.

Lemma overwrite_length (old data : string) :
  String.length (overwrite old data) =
  Nat.max (String.length old) (String.length data).
Proof.
  unfold overwrite. rewrite length_append, overwrite_tail_length. lia.
Qed.



(** What the extraction of one regular file does, where it can be opened. *)
Lemma Untar_regular_entry (fs : FS) (dst : string) (header : Header)
    (body : string) :
  let place := resolve fs (GoPath.Join [dst; Name header]) in
  Typeflag header = TypeReg ->
  place <> [] ->
  lookup_node fs (removelast place) = Some Dir ->
  nodes fs !! place <> Some Dir ->
  Untar dst (Gzip [Entry header body false] EOF) fs =
  (None,
   mkFS (cwd fs)
     (<[ place :=
           match nodes fs !! place with
           | Some (File mode old) => File mode (overwrite old body)
           | _ => File (Mode header) body
           end ]> (nodes fs))).
Proof.
  intros place Htype Hplace Hparent Hnode.
  unfold Untar. cbn [Untar_loop]. rewrite Htype.
  unfold os_OpenFile. fold place.
  destruct place as [|s place'] eqn:Hp; [congruence|].
  rewrite <- Hp in *. rewrite Hparent.
  destruct (nodes fs !! place) as [[|mode old]|] eqn:Hlook;
    [congruence| |].
  - unfold io_Copy. rewrite Hlook. reflexivity.
  - unfold io_Copy. cbn [nodes cwd].
    rewrite lookup_insert_eq, insert_insert_eq, overwrite_empty.
    reflexivity.
Qed.




(** X17.  A file is opened without truncation: a regular-file entry
    extracted over an existing file keeps the mode of that file, writes the
    content of the entry from the start, and leaves what the old content
    had beyond it, so that the file is as long as the longer of the two. *)
Theorem Untar_over_existing_file (fs : FS) (dst : string) (header : Header)
    (body old : string) (mode : Z) :
  let place := resolve fs (GoPath.Join [dst; Name header]) in
  let run := Untar dst (Gzip [Entry header body false] EOF) fs in
  Typeflag header = TypeReg ->
  place <> [] ->
  lookup_node fs (removelast place) = Some Dir ->
  nodes fs !! place = Some (File mode old) ->
  exists tail : string,
    tail = String.substring (String.length body)
             (String.length old - String.length body) old /\
    fst run = None /\
    nodes (snd run) !! place = Some (File mode (body ++ tail)%string) /\
    String.length (body ++ tail)%string
      = Nat.max (String.length old) (String.length body).
Proof.
  intros place run Htype Hplace Hparent Hnode.
  eexists. split; [reflexivity|].
  unfold run.
  rewrite (Untar_regular_entry fs dst header body Htype Hplace Hparent)
    by (fold place; rewrite Hnode; discriminate).
  fold place. rewrite Hnode. cbn [fst snd nodes].
  rewrite lookup_insert_eq.
  repeat split. apply overwrite_length.
Qed.

Lemma Untar_over_existing_file_witness :
  let fs := mkFS "/work"
              (<[ ["work"; "notes"] := File 384 "old content" ]>
                 (nodes sample_fs)) in
  let run := Untar "." (Gzip [Entry (mkHeader "notes" TypeReg 420) "NEW" false]
                             EOF) fs in
  exists tail : string,
    tail = String.substring 3 (11 - 3) "old content" /\
    fst run = None /\
    nodes (snd run) !! ["work"; "notes"] = Some (File 384 ("NEW" ++ tail)%string) /\
    String.length ("NEW" ++ tail)%string = Nat.max 11 3.
Proof.
  intros fs run.
  apply (Untar_over_existing_file fs "." (mkHeader "notes" TypeReg 420)
           "NEW" "old content" 384).
  - reflexivity.
  - vm_compute. discriminate.
  - vm_compute. reflexivity.
  - vm_compute. reflexivity.
Defined.

End Extractor.

(** ** The version file on the file system *)

Lemma WriteFile_then_ReadFile (fs fs1 : Archive.FS) (filename data : string)
    (perm : Z) :
  Files.ioutil_WriteFile fs filename data perm = (None, fs1) ->
  Archive.os_Stat fs1 filename <> None /\
  Files.ioutil_ReadFile fs1 filename = (data, None) /\
  kept fs fs1.
Proof.
  unfold Files.ioutil_WriteFile, Files.ioutil_ReadFile, Archive.os_Stat.
  destruct (Archive.resolve fs filename) as [|s place] eqn:Hplace;
    [discriminate|].
  destruct (Archive.lookup_node fs (removelast (s :: place))) as [[|? ?]|];
    try discriminate.
  destruct (Archive.nodes fs !! (s :: place)) as [[|mode old]|] eqn:Hnode;
    try discriminate; intros [= <-];
    change (Archive.resolve (Archive.mkFS (Archive.cwd fs) ?m) filename)
      with (Archive.resolve fs filename);
    rewrite Hplace; cbn [Archive.lookup_node Archive.nodes];
    rewrite lookup_insert_eq; (split; [discriminate|]);
    (split; [reflexivity|]); (split; [reflexivity|]); intros k;
    cbn [Archive.nodes];
    (destruct (decide (k = s :: place)) as [->|Hne];
     [rewrite Hnode, ?lookup_insert_eq; eauto|
      rewrite lookup_insert_ne by congruence;
      destruct (Archive.nodes fs !! k) as [[|mode' c]|]; eauto]).
Qed.

(** X18.  The version file is read where it is written: when
    [setLatestVersion] succeeds, the version file exists, and
    [getVersionFileData] reads from the same directory exactly the bytes
    that the YAML library produced for the version; nothing else in the
    file system is removed. *)
Theorem setLatestVersion_then_read (marshal : VersionFile -> option string)
    (fs fs1 : Archive.FS) (outPath version : string) :
  Files.setLatestVersion marshal fs outPath version = (None, fs1) ->
  exists data : string,
    marshal (mkVersionFile version) = Some data /\
    Files.doesVersionFileExists fs1 outPath = true /\
    Files.getVersionFileData fs1 outPath = (data, None) /\
    kept fs fs1.
Proof.
  unfold Files.setLatestVersion, Files.doesVersionFileExists,
    Files.getVersionFileData.
  destruct (marshal (mkVersionFile version)) as [data|]; [|discriminate].
  intros Hwrite. exists data.
  destruct (WriteFile_then_ReadFile _ _ _ _ _ Hwrite) as (Hstat & Hread & Hk).
  rewrite Hread.
  destruct (Archive.os_Stat fs1 _); [|congruence].
  repeat split; assumption || reflexivity || apply Hk.
Qed.

Lemma setLatestVersion_then_read_witness :
  let fs1 := snd (Files.setLatestVersion sample_Marshal sample_fs "." "1.2.3") in
  exists data : string,
    sample_Marshal (mkVersionFile "1.2.3") = Some data /\
    Files.doesVersionFileExists fs1 "." = true /\
    Files.getVersionFileData fs1 "." = (data, None) /\
    kept sample_fs fs1.
Proof.
  intros fs1.
  apply (setLatestVersion_then_read sample_Marshal sample_fs fs1 "." "1.2.3").
  vm_compute. reflexivity.
Defined.

Lemma resolve_Join_file (fs : Archive.FS) (dir file : string) :
  dir <> "" -> GoPath.segments file = [file] ->
  String.eqb file "." = false -> String.eqb file ".." = false ->
  Archive.resolve fs (GoPath.Join [dir; file]) =
  (Archive.resolve fs dir ++ [file])%list.
Proof.
  intros Hdir Hsegs Hdot Hdotdot.
  rewrite resolve_Join_plain; [|exact Hdir|].
  - rewrite Hsegs. cbn [List.filter]. rewrite Hdot. reflexivity.
  - unfold Archive.has_dotdot. rewrite Hsegs. cbn. rewrite Hdotdot.
    reflexivity.
Qed.

Lemma WriteFile_elsewhere (fs fs1 : Archive.FS) (filename data : string)
    (perm : Z) :
  Files.ioutil_WriteFile fs filename data perm = (None, fs1) ->
  Archive.cwd fs1 = Archive.cwd fs /\
  forall k : list string,
    k <> Archive.resolve fs filename ->
    Archive.nodes fs1 !! k = Archive.nodes fs !! k.
Proof.
  unfold Files.ioutil_WriteFile.
  destruct (Archive.resolve fs filename) as [|s place]; [discriminate|].
  destruct (Archive.lookup_node fs (removelast (s :: place))) as [[|? ?]|];
    try discriminate.
  destruct (Archive.nodes fs !! (s :: place)) as [[|mode old]|];
    try discriminate; intros [= <-]; (split; [reflexivity|]);
    intros k Hk; cbn [Archive.nodes]; apply lookup_insert_ne; congruence.
Qed.

Lemma resolve_same_cwd (fs fs1 : Archive.FS) (p : string) :
  Archive.cwd fs1 = Archive.cwd fs ->
  Archive.resolve fs1 p = Archive.resolve fs p.
Proof. intros H. unfold Archive.resolve. rewrite H. reflexivity. Qed.

(** X19.  In the earlier revision the version saved is not read back: after
    [setLatestVersion] has written [.sud], the version file is found to
    exist, but [getVersionFileData] reads [.sub] and, where there was no
    such file, reports an error. *)
Theorem version_file_not_read_back (marshal : VersionFile -> option string)
    (fs fs1 : Archive.FS) (outPath version : string) :
  outPath <> "" ->
  Archive.os_Stat fs (GoPath.Join [outPath; ".sub"]) = None ->
  Files000.setLatestVersion marshal fs outPath version = (None, fs1) ->
  Files000.doesVersionFileExists fs1 outPath = true /\
  exists err : string,
    Files000.getVersionFileData fs1 outPath = ("", Some err).
Proof.
  intros Hout Hsub.
  unfold Files000.setLatestVersion, Files000.doesVersionFileExists,
    Files000.getVersionFileData.
  destruct (marshal (mkVersionFile version)) as [data|]; [|discriminate].
  intros Hwrite.
  destruct (WriteFile_then_ReadFile _ _ _ _ _ Hwrite) as (Hstat & _ & _).
  destruct (WriteFile_elsewhere _ _ _ _ _ Hwrite) as (Hcwd & Hother).
  split; [destruct (Archive.os_Stat fs1 _); congruence|].
  assert (Hsud : Archive.resolve fs (GoPath.Join [outPath; ".sud"])
                 = (Archive.resolve fs outPath ++ [".sud"])%list)
    by (apply resolve_Join_file; reflexivity || exact Hout).
  assert (Hsubp : Archive.resolve fs (GoPath.Join [outPath; ".sub"])
                  = (Archive.resolve fs outPath ++ [".sub"])%list)
    by (apply resolve_Join_file; reflexivity || exact Hout).
  unfold Files.ioutil_ReadFile.
  rewrite (resolve_same_cwd fs fs1 _ Hcwd), Hsubp.
  unfold Archive.os_Stat in Hsub. rewrite Hsubp in Hsub.
  destruct (Archive.resolve fs outPath ++ [".sub"])%list as [|t sub] eqn:Hs;
    [eexists; reflexivity|].
  rewrite Hother.
  - cbn [Archive.lookup_node] in Hsub. rewrite Hsub. eexists; reflexivity.
  - rewrite Hsud, <- Hs. intros Heq.
    apply app_inj_tail in Heq as [_ Heq]. discriminate Heq.
Qed.

Lemma version_file_not_read_back_witness :
  let fs1 := snd (Files000.setLatestVersion sample_Marshal sample_fs
                    "/work" "1.2.3") in
  Files000.doesVersionFileExists fs1 "/work" = true /\
  exists err : string,
    Files000.getVersionFileData fs1 "/work" = ("", Some err).
Proof.
  intros fs1.
  apply (version_file_not_read_back sample_Marshal sample_fs fs1 "/work"
           "1.2.3").
  - discriminate.
  - vm_compute. reflexivity.
  - vm_compute. reflexivity.
Defined.

(** X20.  Creating the output directory: when [createOutputDirectory]
    reports no error the directory exists afterwards, as a directory, and
    whatever was in the file system before is still there; it reports an
    error, and changes nothing, exactly when a regular file is in the
    way. *)
Theorem createOutputDirectory_creates (fs : Archive.FS) (outPath : string) :
  (fst (Files.createOutputDirectory fs outPath) = None ->
   Archive.os_Stat (snd (Files.createOutputDirectory fs outPath)) outPath
     = Some Archive.Dir /\
   Files.outputDirectoryExists
     (snd (Files.createOutputDirectory fs outPath)) outPath = true /\
   kept fs (snd (Files.createOutputDirectory fs outPath))) /\
  (fst (Files.createOutputDirectory fs outPath) <> None ->
   snd (Files.createOutputDirectory fs outPath) = fs).
Proof.
  unfold Files.createOutputDirectory, Files.outputDirectoryExists.
  pose proof (os_MkdirAll_kept fs outPath) as Hkept.
  unfold Archive.os_MkdirAll in *.
  destruct (Archive.mkdir_chain [] (Archive.resolve fs outPath)
              (Archive.nodes fs)) as [m|] eqn:Hm; cbn [fst snd] in *.
  - split; [|congruence]. intros _.
    assert (Hstat : Archive.os_Stat (Archive.mkFS (Archive.cwd fs) m) outPath
                    = Some Archive.Dir).
    { unfold Archive.os_Stat, Archive.lookup_node.
      change (Archive.resolve (Archive.mkFS (Archive.cwd fs) m) outPath)
        with (Archive.resolve fs outPath).
      destruct (Archive.resolve fs outPath) as [|s place] eqn:Hplace;
        [reflexivity|].
      apply (mkdir_chain_lookup (s :: place) [] _ _ Hm). discriminate. }
    rewrite Hstat. repeat split; try reflexivity; apply Hkept.
  - split; [discriminate|reflexivity].
Qed.

Lemma createOutputDirectory_creates_witness :
  Archive.os_Stat (snd (Files.createOutputDirectory sample_fs "www/docs"))
    "www/docs" = Some Archive.Dir.
Proof.
  apply (proj1 (createOutputDirectory_creates sample_fs "www/docs")).
  vm_compute. reflexivity.
Defined.

(** ** The older revision *)

(** X21.  The older [sanitizeSemver] accepts and refuses the tags that
    [sanitizeVersion] and [isVersionValueValid] accept and refuse, and ends
    the process with status 1 on the others; but for a tag it accepts it
    returns the empty array, whatever the tag: [parseSemver] gets the array
    by value and never writes it.  Against the baseline 0.0.0 the
    comparison of that revision then says 1 for every valid tag. *)
Theorem sanitizeSemver_loses_parts (v : string) :
  sanitizeSemver v =
    (if isVersionValueValid (sanitizeVersion v)
     then Ok ("", "", "") else Exit 1) /\
  (forall parts : semver3,
      sanitizeSemver v = Ok parts ->
      diffSemvers ("0", "0", "0") parts = 1).
Proof.
  assert (Heq : sanitizeSemver v =
                if isVersionValueValid (sanitizeVersion v)
                then Ok ("", "", "") else Exit 1).
  { unfold sanitizeSemver, sanitizeVersion.
    change (parseSemver ?x ("", "", "")) with (isVersionValueValid x).
    destruct (isVersionValueValid _); reflexivity. }
  split; [exact Heq|].
  intros parts. rewrite Heq.
  destruct (isVersionValueValid _); [|discriminate].
  intros [= <-]. reflexivity.
Qed.

Lemma sanitizeSemver_loses_parts_witness :
  diffSemvers ("0", "0", "0") ("", "", "") = 1.
Proof.
  apply (proj2 (sanitizeSemver_loses_parts "v3.1.4") ("", "", "")).
  reflexivity.
Defined.
